(** * google_indexing_api: the submission pipeline of [main.go]

    A shallow embedding of [main.go] (sitemap -> dedup against two csv
    files -> quota-aware publishing -> append to the sent file), and the
    properties of the specification that hold or fail on it.

    Conventions of the model
    - Go's [int] and [time.Duration] are 64-bit: they are [Z] with the
      wrap-around [wrap64] written where the source computes.
    - A Go function returning [(T, error)] returns [result T]; a runtime
      panic and [log.Fatal] are outcomes of the [Go] monad below.
    - [map[string]struct{}] is a [gset string].
    - A file is modelled by what its decoder yields: the csv records that
      [encoding/csv] lexes from it, or the [<loc>] values [encoding/xml]
      decodes from it.  [csv.Writer] and [csv.Reader] are taken to be
      inverse on one record written after a newline or at the start of a
      file.  A csv file whose last row lacks its final newline is kept
      apart: bytes appended to it continue that row, and the model does not
      fix what the lexer makes of them.
    - The clock counts nanoseconds since the Unix epoch, and the local
      time zone is UTC. *)

From Stdlib Require Import ZArith Ascii String List Lia.
From stdpp Require Import gmap strings list sorting.

Local Open Scope string_scope.
Local Open Scope list_scope.
Local Open Scope Z_scope.

(** ** Machine integers *)

Definition wrap64 (z : Z) : Z := (z + 2 ^ 63) mod 2 ^ 64 - 2 ^ 63.

Definition in_int64 (z : Z) : bool := (- 2 ^ 63 <=? z) && (z <? 2 ^ 63).

(** [x++] on an [int]. *)
Definition incr (x : Z) : Z := wrap64 (x + 1).

(** ** Errors, results *)

Inductive error :=
| ENOENT            (* no such file or directory *)
| EACCES            (* permission denied *)
| EISDIR            (* is a directory *)
| ErrFieldCount     (* csv: wrong number of fields *)
| ErrCsvSyntax      (* csv: any lexical error *)
| ErrXmlSyntax      (* xml: any decoding error *)
| ErrSyntax         (* strconv: invalid syntax *)
| ErrRange          (* strconv: value out of range *)
| ErrCredentials    (* the service could not be created *)
| ErrTransport.     (* the call returned a non-nil error *)

Inductive result (A : Type) :=
| Ok (a : A)
| Err (e : error).
Arguments Ok {A} a.
Arguments Err {A} e.

Inductive panic :=
| DivideByZero                       (* integer divide by zero *)
| IndexOutOfRange (i len : Z).       (* index out of range [i] with length len *)

(** ** strconv *)

Module strconv.

Definition digit (c : ascii) : option Z :=
  let n := Z.of_N (N_of_ascii c) - 48 in
  if (0 <=? n) && (n <=? 9) then Some n else None.

Fixpoint digits (s : string) (acc : Z) : option Z :=
  match s with
  | EmptyString => Some acc
  | String c s' =>
      match digit c with
      | Some d => digits s' (acc * 10 + d)
      | None => None
      end
  end.

(** [strconv.Atoi]: an optional sign, then one or more decimal digits; the
    value must fit an [int]. *)
Definition Atoi (s : string) : result Z :=
  match s with
  | EmptyString => Err ErrSyntax
  | String c rest =>
      let neg := Ascii.eqb c "-" in
      let body := if neg || Ascii.eqb c "+" then rest else s in
      match body with
      | EmptyString => Err ErrSyntax
      | _ =>
          match digits body 0 with
          | None => Err ErrSyntax
          | Some n =>
              let v := if neg then - n else n in
              if in_int64 v then Ok v else Err ErrRange
          end
      end
  end.

End strconv.

(** ** The process and its surroundings *)

(** What a file decodes to.  A csv file is [Csv] when it is empty or its
    last byte is the newline that ends its last row, as [csv.Writer] leaves
    it.  It is [CsvOpen] when the last row has no final newline: the reader
    lexes it all the same, but a row appended to the file starts on that
    last row, and [glued record] stands for what the file decodes to once
    the bytes of [record] and a newline have been added. *)
Inductive content :=
| Csv (records : list (list string))   (* lexes as these csv records, each row ended *)
| Xml (locs : list string)             (* a urlset document with these <loc> values *)
| Junk                                 (* neither *)
| CsvOpen (records : list (list string)) (glued : list string → content).

Inductive node :=
| Regular (r w : bool) (data : content)   (* a file, with its read and write permission *)
| Directory
| Unreachable.   (* under a missing or read-only directory: nothing opens or is created here *)

(** One call of the indexing API: what [Do()] returns, [Ok code] for a
    response with that [HTTPStatusCode], and the nanoseconds it took. *)
Record response := Response { reply : result Z; rtt : N }.

(** The remote service: whether [indexing.NewService] accepts a
    credentials file, and the response to the k-th call. *)
Record remote := Remote {
  connect : string -> bool;
  respond : nat -> string -> response
}.

Record world := World {
  fs : gmap string node;   (* a path without a node does not exist and can be created *)
  clock : Z;               (* nanoseconds since the epoch *)
  calls : nat              (* calls made to the API so far *)
}.

(** What the program prints on standard output. *)
Inductive message :=
| MsgSleepDuration (d : Z)          (* "Sleep duration (s): ", d in nanoseconds *)
| MsgTodayLimit (n : Z)             (* "Today's limit: %d" *)
| MsgSleeping                       (* "Sleeping for a 24 hours..." *)
| MsgSending (url : string)         (* "Sending URL to Index API:" *)
| MsgSendError (e : error)          (* "Error sending URL to Index API:" *)
| MsgStatusCode (code : Z)          (* "Status code: %d" *)
| MsgAppendError (e : error)        (* "Error appending URL to sent.csv:" *)
| MsgFinish (count : Z).            (* "Finish. Sent %d URLs to Google Index API" *)

Inductive event :=
| EvPrint (m : message)
| EvSleep (d : Z)                                (* time.Sleep(d) *)
| EvPublish (url : string) (r : result Z)        (* one Publish(..).Do() and what it returned *)
| EvWrite (path : string) (record : list string).   (* one record flushed to a file *)

(** Every event is stamped with the clock at which it happens. *)
Definition trace := list (Z * event).

(** ** The monad of a Go function body *)

Inductive outcome (A : Type) :=
| Val (a : A)
| Exited (msg : string) (e : error)   (* log.Fatal(msg, e) *)
| Panicked (p : panic).
Arguments Val {A} a.
Arguments Exited {A} msg e.
Arguments Panicked {A} p.

Definition Go (A : Type) : Type := world -> outcome A * trace * world.

Definition ret {A} (a : A) : Go A := fun w => (Val a, [], w).

Definition bind {A B} (m : Go A) (k : A -> Go B) : Go B := fun w =>
  match m w with
  | (Val a, tr, w') => let '(o, tr', w'') := k a w' in (o, tr ++ tr', w'')
  | (Exited msg e, tr, w') => (Exited msg e, tr, w')
  | (Panicked p, tr, w') => (Panicked p, tr, w')
  end.

#[export] Instance Go_ret : MRet Go := @ret.
#[export] Instance Go_bind : MBind Go := fun A B k m => bind m k.

Definition emit (e : event) : Go unit := fun w => (Val tt, [(clock w, e)], w).

Definition Println (m : message) : Go unit := emit (EvPrint m).

Definition Fatal {A} (msg : string) (e : error) : Go A := fun w => (Exited msg e, [], w).

Definition throw {A} (p : panic) : Go A := fun w => (Panicked p, [], w).

(** [for _, x := range l { body }], the body updating the locals [s]. *)
Fixpoint range {A S} (l : list A) (body : A -> S -> Go S) (s : S) : Go S :=
  match l with
  | [] => mret s
  | x :: l' => s' ← body x s; range l' body s'
  end.

(** [s[i]] on a slice. *)
Definition index {A} (s : list A) (i : nat) : Go A :=
  match s !! i with
  | Some x => mret x
  | None => throw (IndexOutOfRange (Z.of_nat i) (Z.of_nat (length s)))
  end.

(** ** time *)

Module time.

Definition Nanosecond : Z := 1.
Definition Millisecond : Z := 1000000 * Nanosecond.
Definition Second : Z := 1000 * Millisecond.
Definition Minute : Z := 60 * Second.
Definition Hour : Z := 60 * Minute.

(** The last [width] decimal digits of [n], zero padded. *)
Fixpoint pad (width : nat) (n : Z) : string :=
  match width with
  | O => EmptyString
  | S w => pad w (n / 10) +:+ String (ascii_of_N (Z.to_N (48 + n mod 10))) EmptyString
  end.

(** Days since 1970-01-01 to (year, month, day) of the proleptic
    Gregorian calendar. *)
Definition civil (days : Z) : Z * Z * Z :=
  let z := days + 719468 in
  let era := z / 146097 in
  let doe := z - era * 146097 in
  let yoe := (doe - doe / 1460 + doe / 36524 - doe / 146096) / 365 in
  let doy := doe - (365 * yoe + yoe / 4 - yoe / 100) in
  let mp := (5 * doy + 2) / 153 in
  let d := doy - (153 * mp + 2) / 5 + 1 in
  let m := if mp <? 10 then mp + 3 else mp - 9 in
  let y := yoe + era * 400 + (if m <=? 2 then 1 else 0) in
  (y, m, d).

(** [t.Format("2006-01-02")], for years 0000 to 9999. *)
Definition FormatDate (t : Z) : string :=
  let '(y, m, d) := civil (t / (24 * Hour)) in
  pad 4 y +:+ "-" +:+ pad 2 m +:+ "-" +:+ pad 2 d.

(** [t.Format(time.RFC3339)] in UTC, for years 0000 to 9999. *)
Definition FormatRFC3339 (t : Z) : string :=
  let s := (t / Second) mod 86400 in
  FormatDate t +:+ "T" +:+ pad 2 (s / 3600) +:+ ":" +:+ pad 2 (s / 60 mod 60)
    +:+ ":" +:+ pad 2 (s mod 60) +:+ "Z".

(** [time.Now()], as nanoseconds since the epoch. *)
Definition Now : Go Z := fun w => (Val (clock w), [], w).

(** [time.Sleep(d)]: returns at once when [d <= 0]. *)
Definition Sleep (d : Z) : Go unit := fun w =>
  (Val tt, [(clock w, EvSleep d)],
   {| fs := fs w; clock := clock w + Z.max d 0; calls := calls w |}).

End time.

(** [strings.HasPrefix(s, prefix)]. *)
Definition HasPrefix (s prefix : string) : bool := String.prefix prefix s.

(** ** os *)

Module os.

Record flag := Flag { rd : bool; wr : bool; creat : bool }.

Definition O_RDONLY : flag := Flag true false false.
Definition O_RDWR_CREATE : flag := Flag true true true.           (* O_RDWR|O_CREATE *)
Definition O_APPEND_CREATE_WRONLY : flag := Flag false true true.  (* O_APPEND|O_CREATE|O_WRONLY *)

(** An open file is named by its path. *)
Abbreviation File := string (only parsing).

(** [os.OpenFile(path, flag, 0644)]. *)
Definition OpenFile (path : string) (f : flag) : Go (result File) := fun w =>
  if String.eqb path "" then (Val (Err ENOENT), [], w) else
  match fs w !! path with
  | None =>
      if creat f
      then (Val (Ok path), [],
            {| fs := <[path := Regular true true (Csv [])]> (fs w);
               clock := clock w; calls := calls w |})
      else (Val (Err ENOENT), [], w)
  | Some (Regular r w' _) =>
      if (implb (rd f) r) && (implb (wr f) w')
      then (Val (Ok path), [], w)
      else (Val (Err EACCES), [], w)
  | Some Directory =>
      if wr f then (Val (Err EISDIR), [], w) else (Val (Ok path), [], w)
  | Some Unreachable => (Val (Err ENOENT), [], w)
  end.

(** [os.Open(path)]. *)
Definition Open (path : string) : Go (result File) := OpenFile path O_RDONLY.

End os.

(** ** encoding/csv, encoding/xml *)

Module csv.

(** The field-count rule of a reader with [FieldsPerRecord = 0]: the first
    record fixes the number of fields of all the others. *)
Fixpoint check_fields (FieldsPerRecord : nat) (records : list (list string)) : result unit :=
  match records with
  | [] => Ok tt
  | record :: rest =>
      if (0 <? FieldsPerRecord)%nat
      then if (length record =? FieldsPerRecord)%nat
           then check_fields FieldsPerRecord rest
           else Err ErrFieldCount
      else check_fields (length record) rest
  end.

(** The records the reader lexes from a file, with or without a newline
    after the last row. *)
Definition rows (data : content) : option (list (list string)) :=
  match data with
  | Csv records | CsvOpen records _ => Some records
  | _ => None
  end.

(** [csv.NewReader(file).ReadAll()]. *)
Definition ReadAll (file : os.File) : Go (result (list (list string))) := fun w =>
  match fs w !! file with
  | Some (Regular _ _ data) =>
      match rows data with
      | Some records =>
          match check_fields 0 records with
          | Ok _ => (Val (Ok records), [], w)
          | Err e => (Val (Err e), [], w)
          end
      | None => (Val (Err ErrCsvSyntax), [], w)
      end
  | Some Directory => (Val (Err EISDIR), [], w)
  | _ => (Val (Err ENOENT), [], w)
  end.

(** [w := csv.NewWriter(file); w.Write(record); w.Flush()] on a file opened
    with O_APPEND: the bytes of the record and a newline go to the end of
    the file, whatever the last byte there is.  After a newline they make
    one more record; after a row left open they continue that row. *)
Definition Write (file : os.File) (record : list string) : Go (option error) := fun w =>
  match fs w !! file with
  | Some (Regular r wr (Csv records)) =>
      (Val None, [(clock w, EvWrite file record)],
       {| fs := <[file := Regular r wr (Csv (records ++ [record]))]> (fs w);
          clock := clock w; calls := calls w |})
  | Some (Regular r wr (CsvOpen _ glued)) =>
      (Val None, [(clock w, EvWrite file record)],
       {| fs := <[file := Regular r wr (glued record)]> (fs w);
          clock := clock w; calls := calls w |})
  | _ => (Val None, [(clock w, EvWrite file record)], w)
  end.

End csv.

Module xml.

(** [ioutil.ReadAll(file)] then [xml.Unmarshal(bytes, &urlset)]. *)
Definition Unmarshal (file : os.File) : Go (result (list string)) := fun w =>
  match fs w !! file with
  | Some (Regular _ _ (Xml locs)) => (Val (Ok locs), [], w)
  | Some (Regular _ _ _) => (Val (Err ErrXmlSyntax), [], w)
  | Some Directory => (Val (Err EISDIR), [], w)
  | _ => (Val (Err ENOENT), [], w)
  end.

End xml.

(** ** google.golang.org/api/indexing *)

Module indexing.

Definition NewService (svc : remote) (credentialsFile : string) : Go (result unit) :=
  mret (if connect svc credentialsFile then Ok tt else Err ErrCredentials).

(** [client.UrlNotifications.Publish(&notification).Do()]. *)
Definition Publish (svc : remote) (url : string) : Go (result Z) := fun w =>
  let r := respond svc (calls w) url in
  (Val (reply r), [(clock w, EvPublish url (reply r))],
   {| fs := fs w; clock := clock w + Z.of_N (rtt r); calls := S (calls w) |}).

End indexing.

(** ** main.go *)

Record Url := { Loc : string }.

Record Urlset := { Urls : list Url }.

(** What [xml.Unmarshal] fills in for a document with these [<loc>] values. *)
Definition decoded (locs : list string) : Urlset := {| Urls := map Build_Url locs |}.

(** The package-level variables, read from the environment at start. *)
Record config := Config {
  credentialsFile : string;   (* GOOGLE_APPLICATION_CREDENTIALS *)
  sitemapFile : string;       (* SITEMAP_FILE *)
  indexedFile : string;       (* INDEXED_FILE *)
  sentFile : string;          (* SENT_FILE *)
  rateLimitDay : string;      (* RATE_LIMIT_PER_DAY *)
  rateLimitMinute : string    (* RATE_LIMIT_PER_MINUTE *)
}.

(** [x / y] on 64-bit integers: truncated, panics on a zero divisor. *)
Definition div (x y : Z) : Go Z :=
  if y =? 0 then throw DivideByZero else mret (wrap64 (Z.quot x y)).

(** parseSitemap parses the given sitemap.xml file and returns a slice of URLs *)
Definition parseSitemap (filePath : string) : Go (result (list string)) :=
  f ← os.Open filePath;
  match f with
  | Err err => mret (Err err)
  | Ok xmlFile =>
      r ← xml.Unmarshal xmlFile;
      match r with
      | Err err => mret (Err err)
      | Ok locs =>
          let urlset := decoded locs in
          urls ← range (Urls urlset) (fun url urls => mret (urls ++ [Loc url])) [];
          mret (Ok urls)
      end
  end.

(** readCsv reads URLs from a CSV file and returns them as a map *)
Definition readCsv (filePath : string) : Go (result (gset string)) :=
  f ← os.OpenFile filePath os.O_RDWR_CREATE;
  match f with
  | Err err => mret (Err err)
  | Ok file =>
      r ← csv.ReadAll file;
      match r with
      | Err err => mret (Err err)
      | Ok records =>
          urls ← range records
                   (fun record (urls : gset string) =>
                      r0 ← index record 0; mret ({[ r0 ]} ∪ urls))
                   ∅;
          mret (Ok urls)
      end
  end.

(** todaySent reads the number of URLs sent today from a CSV file *)
Definition todaySent (filePath : string) : Go (result Z) :=
  f ← os.Open filePath;
  match f with
  | Err err => mret (Err err)
  | Ok file =>
      r ← csv.ReadAll file;
      match r with
      | Err err => mret (Err err)
      | Ok records =>
          now ← time.Now;
          let today := time.FormatDate now in
          sent ← range records
                   (fun record sent =>
                      r1 ← index record 1;
                      mret (if HasPrefix r1 today then incr sent else sent))
                   0;
          mret (Ok sent)
      end
  end.

(** contains checks if a map contains a given string *)
Definition contains (m : gset string) (str : string) : bool := bool_decide (str ∈ m).

(** appendUrlToCsv appends a URL to a CSV file *)
Definition appendUrlToCsv (filePath url : string) : Go (option error) :=
  f ← os.OpenFile filePath os.O_APPEND_CREATE_WRONLY;
  match f with
  | Err err => mret (Some err)
  | Ok file =>
      now ← time.Now;
      err ← csv.Write file [url; time.FormatRFC3339 now];
      match err with
      | Some err => mret (Some err)
      | None => mret None
      end
  end.

(** The locals the loop of [main] updates. *)
Record quota := Quota { count : Z; todayLimit : Z }.

(** The body of [for _, url := range urls] in [main]; each [continue] and
    the end of the body return the locals. *)
Definition loop_body (svc : remote) (sentFile : string)
    (indexedUrls sentUrls : gset string) (rateLimitDayInt sleepDur : Z)
    (url : string) (q : quota) : Go quota :=
  if negb (contains indexedUrls url) && negb (contains sentUrls url) then
    let count := incr (count q) in
    q ← (if count >? todayLimit q then
           Println MsgSleeping;;
           time.Sleep (24 * time.Hour);;
           mret (Quota 0 rateLimitDayInt)
         else mret (Quota count (todayLimit q)));
    Println (MsgSending url);;
    r ← indexing.Publish svc url;
    match r with
    | Err err => Println (MsgSendError err);; mret q
    | Ok HTTPStatusCode =>
        if negb (HTTPStatusCode =? 200) then
          Println (MsgStatusCode HTTPStatusCode);; mret q
        else
          err ← appendUrlToCsv sentFile url;
          match err with
          | Some err => Println (MsgAppendError err);; mret q
          | None => time.Sleep sleepDur;; mret q
          end
    end
  else mret q.

Definition main (cfg : config) (svc : remote) : Go unit :=
  client ← indexing.NewService svc (credentialsFile cfg);
  match client with
  | Err err => Fatal "Error creating indexing service:" err
  | Ok _ =>
  a ← mret (strconv.Atoi (rateLimitDay cfg));
  match a with
  | Err err => Fatal "Error converting rate limit per day to integer:" err
  | Ok rateLimitDayInt =>
  a ← mret (strconv.Atoi (rateLimitMinute cfg));
  match a with
  | Err err => Fatal "Error converting rate limit per minute to integer:" err
  | Ok rateLimitMinuteInt =>
  d ← div time.Minute rateLimitMinuteInt;
  let sleepDur := wrap64 (d + time.Millisecond * 100) in
  Println (MsgSleepDuration sleepDur);;
  r ← parseSitemap (sitemapFile cfg);
  match r with
  | Err err => Fatal "Error parsing sitemap:" err
  | Ok urls =>
  r ← readCsv (indexedFile cfg);
  match r with
  | Err err => Fatal "Error reading indexed URLs:" err
  | Ok indexedUrls =>
  r ← readCsv (sentFile cfg);
  match r with
  | Err err => Fatal "Error reading sent URLs:" err
  | Ok sentUrls =>
  r ← todaySent (sentFile cfg);
  match r with
  | Err err => Fatal "Error reading today's sent URLs:" err
  | Ok todayAlreadySent =>
  let todayLimit := wrap64 (rateLimitDayInt - todayAlreadySent) in
  Println (MsgTodayLimit todayLimit);;
  q ← range urls
        (loop_body svc (sentFile cfg) indexedUrls sentUrls rateLimitDayInt sleepDur)
        (Quota 0 todayLimit);
  Println (MsgFinish (count q))
  end end end end end end end.

(** ** Observations on a trace *)

(** The URLs handed to [Publish], in order. *)
Definition published (tr : trace) : list string :=
  omap (fun te => match te.2 with EvPublish u _ => Some u | _ => None end) tr.

(** The records flushed to [path], each with the time of the write. *)
Definition writes (path : string) (tr : trace) : list (Z * list string) :=
  omap (fun te => match te.2 with
                  | EvWrite p record => if String.eqb p path then Some (te.1, record) else None
                  | _ => None
                  end) tr.

(** The URLs, first field of each record, flushed to [path], in order. *)
Definition recorded (path : string) (tr : trace) : list string :=
  omap (fun tw => tw.2 !! 0%nat) (writes path tr).

(** The durations of the calls to [time.Sleep], in order. *)
Definition sleeps (tr : trace) : list Z :=
  omap (fun te => match te.2 with EvSleep d => Some d | _ => None end) tr.

(** A URL is known when either map contains it. *)
Definition isKnown (indexedUrls sentUrls : gset string) (url : string) : bool :=
  contains indexedUrls url || contains sentUrls url.

(** The first field of some record of the csv file at [path] is [url]. *)
Definition listed (files : gmap string node) (path url : string) : Prop :=
  ∃ r w data records record,
    files !! path = Some (Regular r w data) ∧ csv.rows data = Some records ∧
    record ∈ records ∧ record !! 0%nat = Some url.

(** The world in which [appendUrlToCsv] runs in the loop body: after the
    optional day of sleep and the call to the API. *)
Definition after_publish (svc : remote) (url : string) (q : quota) (w : world) : world :=
  {| fs := fs w;
     clock := (if incr (count q) >? todayLimit q
               then clock w + 24 * time.Hour else clock w)
              + Z.of_N (rtt (respond svc (calls w) url));
     calls := S (calls w) |}.

(** Every record flushed to a file is followed at once, with no time
    passing, by a sleep of [d]. *)
Fixpoint write_then_sleep (d : Z) (tr : trace) : Prop :=
  match tr with
  | [] => True
  | (t, EvWrite _ _) :: rest =>
      match rest with
      | (t', EvSleep d') :: _ => t' = t ∧ d' = d
      | _ => False
      end ∧ write_then_sleep d rest
  | _ :: rest => write_then_sleep d rest
  end.

(** Only lines printed. *)
Definition prints (tr : trace) : Prop := Forall (fun te => ∃ m, te.2 = EvPrint m) tr.

(** What [main] computes for [sleepDur] from a per-minute limit that is
    not zero. *)
Definition pacing (rateLimitMinuteInt : Z) : Z :=
  wrap64 (wrap64 (Z.quot time.Minute rateLimitMinuteInt) + time.Millisecond * 100).

(** The start of [main] got past the service and the two limits. *)
Definition configured (cfg : config) (svc : remote) (D m : Z) : Prop :=
  connect svc (credentialsFile cfg) = true
  ∧ strconv.Atoi (rateLimitDay cfg) = Ok D
  ∧ strconv.Atoi (rateLimitMinute cfg) = Ok m
  ∧ m ≠ 0.

(** The ways [main] stops before its loop, in the order of the source: the
    outcome and the world it leaves. *)
Inductive stops_at_start (cfg : config) (svc : remote) (w : world) :
    outcome unit → world → Prop :=
| stop_service :
    connect svc (credentialsFile cfg) = false →
    stops_at_start cfg svc w (Exited "Error creating indexing service:" ErrCredentials) w
| stop_day e :
    connect svc (credentialsFile cfg) = true →
    strconv.Atoi (rateLimitDay cfg) = Err e →
    stops_at_start cfg svc w
      (Exited "Error converting rate limit per day to integer:" e) w
| stop_minute D e :
    connect svc (credentialsFile cfg) = true →
    strconv.Atoi (rateLimitDay cfg) = Ok D →
    strconv.Atoi (rateLimitMinute cfg) = Err e →
    stops_at_start cfg svc w
      (Exited "Error converting rate limit per minute to integer:" e) w
| stop_zero D :
    connect svc (credentialsFile cfg) = true →
    strconv.Atoi (rateLimitDay cfg) = Ok D →
    strconv.Atoi (rateLimitMinute cfg) = Ok 0 →
    stops_at_start cfg svc w (Panicked DivideByZero) w
| stop_sitemap D m e :
    configured cfg svc D m →
    parseSitemap (sitemapFile cfg) w = (Val (Err e), [], w) →
    stops_at_start cfg svc w (Exited "Error parsing sitemap:" e) w
| stop_indexed D m urls e :
    configured cfg svc D m →
    parseSitemap (sitemapFile cfg) w = (Val (Ok urls), [], w) →
    readCsv (indexedFile cfg) w = (Val (Err e), [], w) →
    stops_at_start cfg svc w (Exited "Error reading indexed URLs:" e) w
| stop_indexed_panic D m urls p :
    configured cfg svc D m →
    parseSitemap (sitemapFile cfg) w = (Val (Ok urls), [], w) →
    readCsv (indexedFile cfg) w = (Panicked p, [], w) →
    stops_at_start cfg svc w (Panicked p) w
| stop_sent D m urls I w1 e :
    configured cfg svc D m →
    parseSitemap (sitemapFile cfg) w = (Val (Ok urls), [], w) →
    readCsv (indexedFile cfg) w = (Val (Ok I), [], w1) →
    readCsv (sentFile cfg) w1 = (Val (Err e), [], w1) →
    stops_at_start cfg svc w (Exited "Error reading sent URLs:" e) w1
| stop_sent_panic D m urls I w1 p :
    configured cfg svc D m →
    parseSitemap (sitemapFile cfg) w = (Val (Ok urls), [], w) →
    readCsv (indexedFile cfg) w = (Val (Ok I), [], w1) →
    readCsv (sentFile cfg) w1 = (Panicked p, [], w1) →
    stops_at_start cfg svc w (Panicked p) w1
| stop_today D m urls I w1 S w2 e :
    configured cfg svc D m →
    parseSitemap (sitemapFile cfg) w = (Val (Ok urls), [], w) →
    readCsv (indexedFile cfg) w = (Val (Ok I), [], w1) →
    readCsv (sentFile cfg) w1 = (Val (Ok S), [], w2) →
    todaySent (sentFile cfg) w2 = (Val (Err e), [], w2) →
    stops_at_start cfg svc w (Exited "Error reading today's sent URLs:" e) w2
| stop_today_panic D m urls I w1 S w2 p :
    configured cfg svc D m →
    parseSitemap (sitemapFile cfg) w = (Val (Ok urls), [], w) →
    readCsv (indexedFile cfg) w = (Val (Ok I), [], w1) →
    readCsv (sentFile cfg) w1 = (Val (Ok S), [], w2) →
    todaySent (sentFile cfg) w2 = (Panicked p, [], w2) →
    stops_at_start cfg svc w (Panicked p) w2.

(** Appending URLs one by one to the file at [filePath], [gap] nanoseconds
    apart; the errors returned, in order. *)
Definition appendAll (filePath : string) (gap : Z) (urls : list string)
    : Go (list (option error)) :=
  range urls
    (fun url errs =>
       time.Sleep gap;;
       err ← appendUrlToCsv filePath url;
       mret (errs ++ [err]))
    [].

(** ** Scenarios *)

(** A service that accepts every key and answers 200 at once. *)
Definition always_ok : remote :=
  Remote (fun _ => true) (fun _ _ => Response (Ok 200) 0).

(** A service that accepts every key and answers 503 after 250ms. *)
Definition unavailable : remote :=
  Remote (fun _ => true) (fun _ _ => Response (Ok 503) 250000000).

Definition settings (day minute : string) : config :=
  Config "key.json" "sitemap.xml" "indexed.csv" "sent.csv" day minute.

(** A disk with a sitemap and an indexed file, and no sent file. *)
Definition disk (locs : list string) (indexed : list (list string)) : gmap string node :=
  <["sitemap.xml" := Regular true false (Xml locs)]>
    (<["indexed.csv" := Regular true true (Csv indexed)]> ∅).

(** 2024-04-05T00:00:00Z. *)
Definition midnight : Z := 1712275200 * time.Second.

Definition boot (files : gmap string node) : world := World files midnight 0.

(** ** Further observations *)

(** The URLs for which the API answered status 200 without error, in order. *)
Definition acknowledged (tr : trace) : list string :=
  omap (fun te => match te.2 with
                  | EvPublish u (Ok code) => if code =? 200 then Some u else None
                  | _ => None
                  end) tr.

(** The line printed before the sleep of a day. *)
Definition is_pause_notice (te : Z * event) : bool :=
  match te.2 with
  | EvPrint MsgSleeping => true
  | _ => false
  end.

(** What a run does before it first sleeps a day. *)
Fixpoint first_day (tr : trace) : trace :=
  match tr with
  | [] => []
  | te :: rest => if is_pause_notice te then [] else te :: first_day rest
  end.

(** The test of [todaySent] on one record that has a second field. *)
Definition sent_on (today : string) (record : list string) : bool :=
  HasPrefix (default "" (record !! 1%nat)) today.

(** The world after [time.Sleep(d)]. *)
Definition slept (d : Z) (w : world) : world :=
  {| fs := fs w; clock := clock w + Z.max d 0; calls := calls w |}.

(** How many times a run sleeps a day. *)
Definition pauses (tr : list (Z * event)) : nat :=
  length (filter (fun te => is_pause_notice te = true) tr).

(** * Properties *)

Ltac go_unfold :=
  unfold mbind, Go_bind, bind, mret, Go_ret, ret, Println, emit, Fatal, throw,
    time.Now, time.Sleep in *.

Ltac go_simpl :=
  cbv beta iota zeta;
  cbn [fs clock calls fst snd app implb andb orb negb os.rd os.wr os.creat
       os.O_RDONLY os.O_RDWR_CREATE os.O_APPEND_CREATE_WRONLY].

Ltac go_crunch :=
  go_unfold; repeat (case_match; simplify_eq/=; try done).

(** ** The library models on known values *)

Example atoi_60 : strconv.Atoi "60" = Ok 60.
Proof. reflexivity. Qed.
Example atoi_neg : strconv.Atoi "-1" = Ok (-1).
Proof. reflexivity. Qed.
Example atoi_plus : strconv.Atoi "+7" = Ok 7.
Proof. reflexivity. Qed.
Example atoi_empty : strconv.Atoi "" = Err ErrSyntax.
Proof. reflexivity. Qed.
Example atoi_sign_only : strconv.Atoi "-" = Err ErrSyntax.
Proof. reflexivity. Qed.
Example atoi_range : strconv.Atoi "9223372036854775808" = Err ErrRange.
Proof. reflexivity. Qed.
Example atoi_min : strconv.Atoi "-9223372036854775808" = Ok (- 2 ^ 63).
Proof. reflexivity. Qed.
Example format_rfc3339 :
  time.FormatRFC3339 (1712320496 * time.Second + 5) = "2024-04-05T12:34:56Z".
Proof. vm_compute. reflexivity. Qed.
Example format_leap : time.FormatDate (1709164800 * time.Second) = "2024-02-29".
Proof. vm_compute. reflexivity. Qed.
Example format_epoch : time.FormatDate 0 = "1970-01-01".
Proof. vm_compute. reflexivity. Qed.
Example format_y2k : time.FormatDate (951782400 * time.Second) = "2000-02-29".
Proof. vm_compute. reflexivity. Qed.

(** ** The loop body *)

Lemma day_max : Z.max (24 * time.Hour) 0 = 24 * time.Hour.
Proof. reflexivity. Qed.

Section Loop.
Context (svc : remote) (sentFile : string) (indexedUrls sentUrls : gset string)
        (rateLimitDayInt sleepDur : Z).

Let body := loop_body svc sentFile indexedUrls sentUrls rateLimitDayInt sleepDur.

Lemma loop_body_known url q w :
  isKnown indexedUrls sentUrls url = true → body url q w = (Val q, [], w).
Proof.
  unfold isKnown, body, loop_body. intros H.
  destruct (contains indexedUrls url), (contains sentUrls url); simpl in *; done.
Qed.

Lemma appendUrlToCsv_cases path url w :
  (∃ e, appendUrlToCsv path url w = (Val (Some e), [], w)) ∨
  (∃ w', appendUrlToCsv path url w =
          (Val None, [(clock w, EvWrite path [url; time.FormatRFC3339 (clock w)])], w')
         ∧ clock w' = clock w ∧ calls w' = calls w).
Proof.
  unfold appendUrlToCsv, os.OpenFile, csv.Write.
  go_crunch; eauto.
Qed.

Lemma loop_body_unknown url q w :
  isKnown indexedUrls sentUrls url = false →
  let pause := incr (count q) >? todayLimit q in
  let q' := if pause then Quota 0 rateLimitDayInt
            else Quota (incr (count q)) (todayLimit q) in
  let pre := if pause
             then [(clock w, EvPrint MsgSleeping); (clock w, EvSleep (24 * time.Hour))]
             else [] in
  let t1 := if pause then clock w + 24 * time.Hour else clock w in
  let r := reply (respond svc (calls w) url) in
  let w2 := after_publish svc url q w in
  ∃ post w',
    body url q w =
      (Val q', pre ++ [(t1, EvPrint (MsgSending url)); (t1, EvPublish url r)] ++ post, w')
    ∧ calls w' = S (calls w)
    ∧ ((r = Ok 200 ∧ (appendUrlToCsv sentFile url w2).1.1 = Val None
        ∧ post = [(clock w2, EvWrite sentFile [url; time.FormatRFC3339 (clock w2)]);
                  (clock w2, EvSleep sleepDur)]
        ∧ clock w' = clock w2 + Z.max sleepDur 0)
       ∨ ((r ≠ Ok 200 ∨ ∃ e, (appendUrlToCsv sentFile url w2).1.1 = Val (Some e))
          ∧ (∃ m, post = [(clock w2, EvPrint m)])
          ∧ w' = w2)).
Proof.
  unfold isKnown, body, loop_body, after_publish. intros Hk.
  destruct (contains indexedUrls url), (contains sentUrls url); simpl in Hk; try done.
  simpl negb. simpl andb. cbv iota.
  set (c := incr (count q)).
  destruct (c >? todayLimit q) eqn:Hp;
    unfold indexing.Publish; go_unfold; simpl;
    rewrite ?day_max;
    destruct (reply (respond svc (calls w) url)) as [code|e] eqn:Hr; simpl.
  all: try (eexists _, _; split; [reflexivity|]; split; [done|];
            right; split; [left; congruence|]; split; [eauto|]; done).
  all: destruct (code =? 200) eqn:Hc; simpl.
  all: try (eexists _, _; split; [reflexivity|]; split; [done|];
            right; split; [left; intros [= ->]; done|]; split; [eauto|]; done).
  all: apply Z.eqb_eq in Hc as ->.
  all: match goal with |- context [appendUrlToCsv ?p ?u ?w0] =>
         destruct (appendUrlToCsv_cases p u w0) as [[e He]|(w' & He & Hcl & Hca)];
         rewrite He; simpl end.
  all: try (eexists _, _; split; [reflexivity|]; split; [done|];
            right; split; [right; eauto|]; split; [eauto|]; done).
  all: simpl in Hcl, Hca.
  all: eexists _, _; split; [reflexivity|]; split; [simpl; congruence|];
       left; split; [done|]; split; [done|]; rewrite Hcl; split; [done|];
       simpl; congruence.
Qed.

Lemma published_app tr1 tr2 : published (tr1 ++ tr2) = published tr1 ++ published tr2.
Proof. apply omap_app. Qed.

Lemma writes_app p tr1 tr2 : writes p (tr1 ++ tr2) = writes p tr1 ++ writes p tr2.
Proof. apply omap_app. Qed.

Lemma sleeps_app tr1 tr2 : sleeps (tr1 ++ tr2) = sleeps tr1 ++ sleeps tr2.
Proof. apply omap_app. Qed.

Lemma write_then_sleep_app d tr1 tr2 :
  write_then_sleep d tr1 → write_then_sleep d tr2 → write_then_sleep d (tr1 ++ tr2).
Proof.
  induction tr1 as [|[t e] tr1 IH]; simpl; [done|].
  destruct e; auto.
  intros [H1 H2] H3. split; [|auto].
  destruct tr1 as [|[t' []] ?]; simpl; done.
Qed.

(** What one turn of the loop shows, for a known or an unknown URL. *)
Lemma loop_body_summary url q w :
  ∃ q' tr w',
    body url q w = (Val q', tr, w')
    ∧ published tr = (if isKnown indexedUrls sentUrls url then [] else [url])
    ∧ (writes sentFile tr = []
       ∨ isKnown indexedUrls sentUrls url = false
         ∧ ∃ t, writes sentFile tr = [(t, [url; time.FormatRFC3339 t])]
                ∧ clock w ≤ t ∧ t + Z.max sleepDur 0 ≤ clock w')
    ∧ clock w ≤ clock w'
    ∧ write_then_sleep sleepDur tr.
Proof.
  destruct (isKnown indexedUrls sentUrls url) eqn:Hk.
  - rewrite loop_body_known by done. eexists _, _, _. split; [done|].
    repeat split; auto. lia.
  - destruct (loop_body_unknown url q w Hk) as (post & w' & -> & _ & Hpost).
    eexists _, _, _. split; [done|].
    assert (Hpre : clock w ≤ clock (after_publish svc url q w)).
    { unfold after_publish. simpl. case_match; unfold time.Hour, time.Minute,
        time.Second, time.Millisecond, time.Nanosecond; lia. }
    destruct Hpost as [(_ & _ & -> & Hc)|(_ & [m ->] & ->)].
    + split; [by case_match|]. split.
      * right. split; [done|]. exists (clock (after_publish svc url q w)).
        split; [|lia].
        unfold writes. rewrite omap_app. case_match; simpl; rewrite String.eqb_refl; done.
      * split; [lia|]. case_match; simpl; done.
    + split; [by case_match|]. split; [left; by case_match|].
      split; [done|]. case_match; simpl; done.
Qed.

(** The loop never stops early, publishes exactly the URLs that are not
    known, in order, and its writes to the sent file are paced. *)
Lemma loop_summary urls q w :
  ∃ q' tr w',
    range urls body q w = (Val q', tr, w')
    ∧ published tr = filter (fun u => isKnown indexedUrls sentUrls u = false) urls
    ∧ recorded sentFile tr `sublist_of` published tr
    ∧ clock w ≤ clock w'
    ∧ Forall (fun tw => clock w ≤ tw.1) (writes sentFile tr)
    ∧ StronglySorted (fun t1 t2 => t1 + Z.max sleepDur 0 ≤ t2) (writes sentFile tr).*1
    ∧ write_then_sleep sleepDur tr.
Proof.
  revert q w. induction urls as [|url urls IH]; intros q w; simpl.
  - eexists _, _, _. split; [done|]. repeat split; simpl; auto; try lia; constructor.
  - destruct (loop_body_summary url q w) as (q1 & tr1 & w1 & Hb & Hp & Hw & Hc & Hs).
    destruct (IH q1 w1) as (q2 & tr2 & w2 & Hr & Hp2 & Hsub & Hc2 & Hge & Hsort & Hs2).
    unfold mbind, Go_bind, bind. rewrite Hb, Hr.
    eexists _, _, _. split; [done|].
    unfold recorded in *. rewrite published_app, writes_app, omap_app, Hp, Hp2.
    split; [|split; [|split; [lia|split; [|split]]]].
    + rewrite filter_cons. destruct (isKnown _ _ url); simpl; done.
    + rewrite Hp2 in Hsub.
      destruct Hw as [->|(Hk & t & -> & _)]; simpl.
      * destruct (isKnown _ _ url); [done|]. by apply sublist_cons.
      * rewrite Hk. simpl. by apply sublist_skip.
    + apply Forall_app. split.
      * destruct Hw as [->|(_ & t & -> & ? & _)]; [constructor|].
        repeat constructor. done.
      * eapply Forall_impl; [exact Hge|]. simpl. intros; lia.
    + destruct Hw as [->|(_ & t & -> & ? & Ht)]; simpl; [done|].
      constructor; [done|].
      rewrite Forall_fmap. eapply Forall_impl; [exact Hge|]. simpl. intros; lia.
    + by apply write_then_sleep_app.
Qed.

End Loop.

(** The four ways a turn on a URL that is not known can go. *)
Lemma loop_body_shape svc sentFile indexedUrls sentUrls rateLimitDayInt sleepDur url q w :
  isKnown indexedUrls sentUrls url = false →
  let pause := incr (count q) >? todayLimit q in
  let q' := if pause then Quota 0 rateLimitDayInt
            else Quota (incr (count q)) (todayLimit q) in
  let pre := if pause
             then [(clock w, EvPrint MsgSleeping); (clock w, EvSleep (24 * time.Hour))]
             else [] in
  let t1 := if pause then clock w + 24 * time.Hour else clock w in
  let r := reply (respond svc (calls w) url) in
  let w2 := after_publish svc url q w in
  ∃ post w',
    loop_body svc sentFile indexedUrls sentUrls rateLimitDayInt sleepDur url q w
    = (Val q', pre ++ [(t1, EvPrint (MsgSending url)); (t1, EvPublish url r)] ++ post, w')
    ∧ ((∃ e, r = Err e ∧ post = [(clock w2, EvPrint (MsgSendError e))] ∧ w' = w2)
       ∨ (∃ code, r = Ok code ∧ code ≠ 200
                  ∧ post = [(clock w2, EvPrint (MsgStatusCode code))] ∧ w' = w2)
       ∨ (∃ e, r = Ok 200 ∧ appendUrlToCsv sentFile url w2 = (Val (Some e), [], w2)
               ∧ post = [(clock w2, EvPrint (MsgAppendError e))] ∧ w' = w2)
       ∨ (∃ wa, r = Ok 200
                ∧ appendUrlToCsv sentFile url w2
                  = (Val None,
                     [(clock w2, EvWrite sentFile [url; time.FormatRFC3339 (clock w2)])], wa)
                ∧ post = [(clock w2, EvWrite sentFile [url; time.FormatRFC3339 (clock w2)]);
                          (clock w2, EvSleep sleepDur)]
                ∧ w' = slept sleepDur wa)).
Proof.
  unfold isKnown, loop_body, after_publish. intros Hk.
  destruct (contains indexedUrls url), (contains sentUrls url); simpl in Hk; try done.
  simpl negb. simpl andb. cbv iota.
  set (c := incr (count q)).
  destruct (c >? todayLimit q) eqn:Hp;
    unfold indexing.Publish; go_unfold; simpl;
    rewrite ?day_max;
    destruct (reply (respond svc (calls w) url)) as [code|e] eqn:Hr; simpl.
  all: try (eexists _, _; split; [reflexivity|]; left; eauto).
  all: destruct (code =? 200) eqn:Hc; simpl.
  all: try (eexists _, _; split; [reflexivity|]; right; left; exists code;
            split_and!; try done; intros ->; done).
  all: apply Z.eqb_eq in Hc as ->.
  all: match goal with |- context [appendUrlToCsv ?p ?u ?w0] =>
         destruct (appendUrlToCsv_cases p u w0) as [[e He]|(wa & He & Hcl & Hca)];
         rewrite He; simpl end.
  all: try (eexists _, _; split; [reflexivity|]; right; right; left; exists e;
            split_and!; done).
  all: simpl in Hcl, Hca.
  all: eexists _, _; split; [reflexivity|]; right; right; right; exists wa;
       rewrite Hcl; split_and!; try done.
  all: unfold slept; rewrite Hcl; done.
Qed.

(** ** Loading at start *)

Lemma range_cons {A S} (x : A) l (body : A → S → Go S) s w :
  range (x :: l) body s w
  = match body x s w with
    | (Val s', tr, w') => let '(o, tr', w'') := range l body s' w' in (o, tr ++ tr', w'')
    | (Exited msg e, tr, w') => (Exited msg e, tr, w')
    | (Panicked p, tr, w') => (Panicked p, tr, w')
    end.
Proof. reflexivity. Qed.

Lemma range_pure {A S} (f : A → S → S) (body : A → S → Go S) l s w :
  (∀ x s w, body x s w = (Val (f x s), [], w)) →
  range l body s w = (Val (foldl (fun s x => f x s) s l), [], w).
Proof.
  intros Hb. revert s. induction l as [|x l IH]; intros s; simpl; [done|].
  unfold mbind, Go_bind, bind. rewrite Hb, IH. done.
Qed.

(** A loop that reads field [i] of every record: it either folds over all
    of them or panics at the first record that is too short. *)
Lemma range_index {S} (i : nat) (f : string → S → S) body (records : list (list string)) s w :
  (∀ record s w,
     body record s w =
       match record !! i with
       | Some x => (Val (f x s), [], w)
       | None => (Panicked (IndexOutOfRange (Z.of_nat i) (Z.of_nat (length record))), [], w)
       end) →
  (Forall (fun r => is_Some (r !! i)) records
   ∧ range records body s w
     = (Val (foldl (fun s r => f (default "" (r !! i)) s) s records), [], w))
  ∨ (∃ record, record ∈ records ∧ record !! i = None
        ∧ range records body s w
          = (Panicked (IndexOutOfRange (Z.of_nat i) (Z.of_nat (length record))), [], w)).
Proof.
  intros Hb. revert s. induction records as [|r records IH]; intros s.
  - left. split; [constructor|done].
  - simpl. unfold mbind at 1 2, Go_bind, bind. rewrite Hb.
    destruct (r !! i) as [x|] eqn:Hr.
    + destruct (IH (f x s)) as [[HF ->]|(record & Hin & Hnone & ->)].
      * left. split; [constructor; eauto|]. simpl. done.
      * right. exists record. split; [by right|done].
    + right. exists r. split; [left|done].
Qed.

Ltac range_index_cases i f w :=
  match goal with
  | |- context [range ?records ?body ?s0 w] =>
      let H := fresh in
      assert (H : ∀ record st wd,
                 body record st wd =
                   match record !! i with
                   | Some x => (Val (f x st), [], wd)
                   | None => (Panicked (IndexOutOfRange (Z.of_nat i)
                                          (Z.of_nat (length record))), [], wd)
                   end)
        by (intros record ? ?; unfold index; destruct (record !! i); reflexivity);
      destruct (range_index i f body records s0 w H)
        as [[?HF ->]|(?record & ?Hin & ?Hnone & ->)]; clear H
  end.

Lemma parseSitemap_spec path w :
  ∃ r, parseSitemap path w = (Val r, [], w)
       ∧ ∀ urls, r = Ok urls ↔
           path ≠ "" ∧ ∃ wr, fs w !! path = Some (Regular true wr (Xml urls)).
Proof.
  assert (Hfold : ∀ locs acc,
            foldl (fun urls url => urls ++ [Loc url]) acc (map Build_Url locs)
            = acc ++ locs).
  { induction locs as [|l locs IH]; intros acc; simpl; [by rewrite app_nil_r|].
    rewrite IH, <- app_assoc. done. }
  unfold parseSitemap, os.Open, os.OpenFile, xml.Unmarshal. go_unfold.
  destruct (String.eqb_spec path "") as [->|Hne]; simpl.
  { eexists. split; [done|]. intros urls. split; [done|]. intros [? _]. done. }
  cbv beta.
  destruct (fs w !! path) as [[rd wr [records|locs| |records glued]| |]|] eqn:Hf; go_simpl;
    try destruct rd; go_simpl; rewrite ?Hf; go_simpl.
  all: try (eexists; split; [done|]; intros urls; split; [done|];
            intros [_ [? [=]]]; done).
  rewrite (range_pure (fun url urls => urls ++ [Loc url])) by done.
  rewrite Hfold. go_simpl. eexists. split; [reflexivity|]. intros urls. split.
  - intros [= <-]. eauto.
  - intros [_ [? ?]]. simplify_eq. done.
Qed.

(** The set [readCsv] builds from the records it read. *)
Lemma first_fields_elem (records : list (list string)) (acc : gset string) u :
  u ∈ foldl (fun s r => {[ default "" (r !! 0%nat) ]} ∪ s) acc records
  ↔ u ∈ acc ∨ ∃ record, record ∈ records ∧ default "" (record !! 0%nat) = u.
Proof.
  revert acc. induction records as [|r records IH]; intros acc; simpl.
  - split; [auto|]. intros [?|(? & ? & _)]; [done|]. by apply elem_of_nil in H.
  - rewrite IH. rewrite elem_of_union, elem_of_singleton. split.
    + intros [[->|?]|(record & ? & ?)]; eauto.
      * right. exists r. split; [left|done].
      * right. exists record. split; [by right|done].
    + intros [?|(record & Hin & ?)]; [auto|].
      apply elem_of_cons in Hin as [->|?]; eauto.
Qed.

Lemma readCsv_spec path w :
  ∃ o w',
    readCsv path w = (o, [], w')
    ∧ clock w' = clock w ∧ calls w' = calls w
    ∧ (∀ p n, fs w !! p = Some n → fs w' !! p = Some n)
    ∧ match o with
      | Val (Ok s) =>
          path ≠ ""
          ∧ ((fs w !! path = None ∧ s = ∅
              ∧ fs w' = <[path := Regular true true (Csv [])]> (fs w))
             ∨ (∃ data records,
                  fs w !! path = Some (Regular true true data)
                  ∧ csv.rows data = Some records ∧ w' = w
                  ∧ csv.check_fields 0 records = Ok tt
                  ∧ Forall (fun r => is_Some (r !! 0%nat)) records
                  ∧ s = foldl (fun s r => {[ default "" (r !! 0%nat) ]} ∪ s) ∅ records))
      | Val (Err e) =>
          w' = w
          ∧ (path = ""
             ∨ ∃ n, fs w !! path = Some n
                    ∧ ∀ data records, n = Regular true true data →
                                      csv.rows data = Some records →
                                      csv.check_fields 0 records = Err e)
      | Panicked p =>
          w' = w ∧ ∃ data records record,
            fs w !! path = Some (Regular true true data)
            ∧ csv.rows data = Some records
            ∧ csv.check_fields 0 records = Ok tt
            ∧ record ∈ records ∧ record !! 0%nat = None
            ∧ p = IndexOutOfRange 0 (Z.of_nat (length record))
      | Exited _ _ => False
      end.
Proof.
  unfold readCsv, os.OpenFile, csv.ReadAll. go_unfold.
  destruct (String.eqb_spec path "") as [->|Hne]; go_simpl.
  { eexists _, _. split; [reflexivity|]. repeat split; auto. }
  destruct (fs w !! path) as [[rd wr data| |]|] eqn:Hf; go_simpl.
  - destruct rd, wr; go_simpl; rewrite ?Hf; go_simpl.
    2-4: eexists _, _; split; [reflexivity|]; split_and!; eauto;
         right; eexists; split; [done|]; intros ? ? [=].
    destruct (csv.rows data) as [records|] eqn:Hrows; go_simpl.
    2: { eexists _, _; split; [reflexivity|]; split_and!; eauto.
         right; eexists; split; [done|]. intros ? ? [= <-]. congruence. }
    destruct (csv.check_fields 0 records) as [[]|e] eqn:Hck; go_simpl.
    2: { eexists _, _; split; [reflexivity|]; split_and!; eauto.
         right; eexists; split; [done|]. intros ? ? [= <-] ?. congruence. }
    range_index_cases 0%nat (fun r0 (urls : gset string) => {[ r0 ]} ∪ urls) w; go_simpl.
    + eexists _, _. split; [reflexivity|]. repeat split; auto.
      right. exists data, records. repeat split; auto.
    + eexists _, _. split; [reflexivity|]. split_and!; eauto 10.
  - eexists _, _. split; [reflexivity|]. split_and!; eauto.
    right; eexists; split; [done|]; intros ? ? [=].
  - eexists _, _. split; [reflexivity|]. split_and!; eauto.
    right; eexists; split; [done|]; intros ? ? [=].
  - rewrite lookup_insert_eq. go_simpl.
    eexists _, _. split; [reflexivity|]. go_simpl. repeat split; auto.
    intros p n Hp. rewrite lookup_insert_ne; [done|]. intros ->. congruence.
Qed.

Lemma todaySent_spec path w :
  ∃ o,
    todaySent path w = (o, [], w)
    ∧ match o with
      | Val (Ok n) =>
          ∃ wr data records,
            fs w !! path = Some (Regular true wr data)
            ∧ csv.rows data = Some records
            ∧ csv.check_fields 0 records = Ok tt
            ∧ Forall (fun r => is_Some (r !! 1%nat)) records
            ∧ n = foldl (fun sent r =>
                           if HasPrefix (default "" (r !! 1%nat)) (time.FormatDate (clock w))
                           then incr sent else sent) 0 records
      | Val (Err e) =>
          path = ""
          ∨ ∀ wr data records, fs w !! path = Some (Regular true wr data) →
                               csv.rows data = Some records →
                               csv.check_fields 0 records = Err e
      | Panicked p =>
          ∃ wr data records record,
            fs w !! path = Some (Regular true wr data)
            ∧ csv.rows data = Some records
            ∧ csv.check_fields 0 records = Ok tt
            ∧ record ∈ records ∧ record !! 1%nat = None
            ∧ p = IndexOutOfRange 1 (Z.of_nat (length record))
      | Exited _ _ => False
      end.
Proof.
  unfold todaySent, os.Open, os.OpenFile, csv.ReadAll. go_unfold.
  destruct (String.eqb_spec path "") as [->|Hne]; go_simpl.
  { eexists. split; [reflexivity|]. by left. }
  destruct (fs w !! path) as [[rd wr data| |]|] eqn:Hf; go_simpl;
    try destruct rd; go_simpl; rewrite ?Hf; go_simpl.
  all: try (eexists; split; [reflexivity|]; right; intros ? ? ? [=]).
  destruct (csv.rows data) as [records|] eqn:Hrows; go_simpl.
  all: try (eexists; split; [reflexivity|]; right; intros ? ? ? [= <- <-]; congruence).
  destruct (csv.check_fields 0 records) as [[]|e] eqn:Hck; go_simpl.
  all: try (eexists; split; [reflexivity|]; right; intros ? ? ? [= <- <-] ?; congruence).
  range_index_cases 1%nat (fun r1 sent => if HasPrefix r1 (time.FormatDate (clock w))
                                          then incr sent else sent) w; go_simpl.
  - eexists. split; [reflexivity|]. exists wr, data, records. repeat split; auto.
  - eexists. split; [reflexivity|]. exists wr, data, records, record.
    repeat split; auto.
Qed.

(** ** The shape of a run of [main] *)

Lemma prints_observed tr :
  prints tr →
  published tr = [] ∧ (∀ p, writes p tr = []) ∧ sleeps tr = []
  ∧ ∀ d, write_then_sleep d tr.
Proof.
  induction 1 as [|[t e] tr [m Hm] _ (IH1 & IH2 & IH3 & IH4)]; [done|].
  simpl in Hm. subst e. unfold published, writes, sleeps in *. simpl.
  repeat split; auto.
Qed.

(** Either [main] stops while it starts up, having only printed, or
    every step of the start succeeds and the loop runs to its end. *)
Lemma main_cases cfg svc w :
  (∃ o tr w', main cfg svc w = (o, tr, w') ∧ stops_at_start cfg svc w o w'
              ∧ o ≠ Val tt ∧ prints tr)
  ∨ (∃ D m urls I S n w1 w2 q tr w3 pre post,
       configured cfg svc D m
       ∧ parseSitemap (sitemapFile cfg) w = (Val (Ok urls), [], w)
       ∧ readCsv (indexedFile cfg) w = (Val (Ok I), [], w1)
       ∧ readCsv (sentFile cfg) w1 = (Val (Ok S), [], w2)
       ∧ todaySent (sentFile cfg) w2 = (Val (Ok n), [], w2)
       ∧ range urls (loop_body svc (sentFile cfg) I S D (pacing m))
           (Quota 0 (wrap64 (D - n))) w2 = (Val q, tr, w3)
       ∧ prints pre ∧ prints post
       ∧ main cfg svc w = (Val tt, pre ++ tr ++ post, w3)).
Proof.
  unfold main, indexing.NewService, div. go_unfold.
  destruct (connect svc (credentialsFile cfg)) eqn:Hconn; go_simpl.
  2: { left. eexists _, _, _. split; [reflexivity|].
       split; [by constructor|]. split; [done|constructor]. }
  destruct (strconv.Atoi (rateLimitDay cfg)) as [D|e] eqn:HD; go_simpl.
  2: { left. eexists _, _, _. split; [reflexivity|].
       split; [by constructor|]. split; [done|constructor]. }
  destruct (strconv.Atoi (rateLimitMinute cfg)) as [m|e] eqn:Hm; go_simpl.
  2: { left. eexists _, _, _. split; [reflexivity|].
       split; [by econstructor|]. split; [done|constructor]. }
  destruct (Z.eqb_spec m 0) as [->|Hm0]; go_simpl.
  { left. eexists _, _, _. split; [reflexivity|].
    split; [by econstructor|]. split; [done|constructor]. }
  assert (Hcfg : configured cfg svc D m) by done.
  fold (pacing m).
  destruct (parseSitemap_spec (sitemapFile cfg) w) as (r & Hps & _). rewrite Hps. go_simpl.
  destruct r as [urls|e]; go_simpl.
  2: { left. eexists _, _, _. split; [reflexivity|].
       split; [by econstructor|]. split; [done|]. repeat constructor. eauto. }
  destruct (readCsv_spec (indexedFile cfg) w) as (o1 & w1 & HrI & Hc1 & _ & _ & Ho1).
  rewrite HrI. go_simpl.
  destruct o1 as [[I|e]|?|?]; go_simpl; [| | done |].
  2: { destruct Ho1 as [-> _]. left. eexists _, _, _. split; [reflexivity|].
       split; [by econstructor|]. split; [done|]. repeat constructor. eauto. }
  2: { destruct Ho1 as [-> _]. left. eexists _, _, _. split; [reflexivity|].
       split; [by econstructor|]. split; [done|]. repeat constructor. eauto. }
  destruct (readCsv_spec (sentFile cfg) w1) as (o2 & w2 & HrS & Hc2 & _ & _ & Ho2).
  rewrite HrS. go_simpl.
  destruct o2 as [[S|e]|?|?]; go_simpl; [| | done |].
  2: { destruct Ho2 as [-> _]. left. eexists _, _, _. split; [reflexivity|].
       split; [by econstructor|]. split; [done|]. repeat constructor. eauto. }
  2: { destruct Ho2 as [-> _]. left. eexists _, _, _. split; [reflexivity|].
       split; [by econstructor|]. split; [done|]. repeat constructor. eauto. }
  destruct (todaySent_spec (sentFile cfg) w2) as (o3 & Hts & Ho3).
  rewrite Hts. go_simpl.
  destruct o3 as [[n|e]|?|?]; go_simpl; [| | done |].
  2: { left. eexists _, _, _. split; [reflexivity|].
       split; [by econstructor|]. split; [done|]. repeat constructor. eauto. }
  2: { left. eexists _, _, _. split; [reflexivity|].
       split; [by econstructor|]. split; [done|]. repeat constructor. eauto. }
  destruct (loop_summary svc (sentFile cfg) I S D (pacing m) urls
              (Quota 0 (wrap64 (D - n))) w2) as (q & tr & w3 & Hloop & _).
  rewrite Hloop. go_simpl.
  right.
  exists D, m, urls, I, S, n, w1, w2, q, tr, w3.
  eexists [_; _], [_].
  split_and!; try done; try (repeat constructor; simpl; eauto).
Qed.

(** ** Stopping at start *)

Lemma stops_at_start_det cfg svc w o1 w1 o2 w2 :
  stops_at_start cfg svc w o1 w1 → stops_at_start cfg svc w o2 w2 → o1 = o2 ∧ w1 = w2.
Proof.
  intros H1 H2.
  inversion H1; inversion H2; subst; unfold configured in *; destruct_and?;
    split; congruence.
Qed.

(** The relation describes [main]: when a step of the start fails, [main]
    ends with that outcome in that world, having published nothing. *)
Lemma stops_at_start_main cfg svc w o w' :
  stops_at_start cfg svc w o w' →
  ∃ tr, main cfg svc w = (o, tr, w') ∧ o ≠ Val tt ∧ prints tr.
Proof.
  intros Hs.
  destruct (main_cases cfg svc w)
    as [(o' & tr & w'' & Hm & Hs' & Hne & Hpr)
       |(D & m & urls & I & S & n & w1 & w2 & q & tr & w3 & pre & post
         & Hcfg & Hps & HrI & HrS & Hts & _)].
  - destruct (stops_at_start_det _ _ _ _ _ _ _ Hs Hs') as [-> ->]. eauto.
  - exfalso.
    inversion Hs; subst; unfold configured in *; destruct_and?; congruence.
Qed.

(** When every step of the start succeeds the loop runs, over the URLs of
    the sitemap and with the two maps read at start. *)
Lemma main_reaches_loop cfg svc w D m urls I S n w1 w2 :
  configured cfg svc D m →
  parseSitemap (sitemapFile cfg) w = (Val (Ok urls), [], w) →
  readCsv (indexedFile cfg) w = (Val (Ok I), [], w1) →
  readCsv (sentFile cfg) w1 = (Val (Ok S), [], w2) →
  todaySent (sentFile cfg) w2 = (Val (Ok n), [], w2) →
  ∃ q tr w3 pre post,
    range urls (loop_body svc (sentFile cfg) I S D (pacing m))
      (Quota 0 (wrap64 (D - n))) w2 = (Val q, tr, w3)
    ∧ prints pre ∧ prints post
    ∧ main cfg svc w = (Val tt, pre ++ tr ++ post, w3).
Proof.
  intros Hcfg Hps HrI HrS Hts.
  destruct (main_cases cfg svc w)
    as [(o' & tr & w'' & Hm & Hs & _)
       |(D' & m' & urls' & I' & S' & n' & w1' & w2' & q & tr & w3 & pre & post
         & Hcfg' & Hps' & HrI' & HrS' & Hts' & Hloop & Hpre & Hpost & Heq)].
  - exfalso.
    inversion Hs; subst; unfold configured in *; destruct_and?; congruence.
  - unfold configured in *. destruct_and?.
    assert (D' = D) by congruence. assert (m' = m) by congruence.
    assert (urls' = urls) by congruence. assert (I' = I ∧ w1' = w1) as [-> ->].
    { split; congruence. }
    assert (S' = S ∧ w2' = w2) as [-> ->] by (split; congruence).
    assert (n' = n) by congruence. subst.
    exists q, tr, w3, pre, post. done.
Qed.

(** When every step of the start succeeds, [main] is its two printed lines,
    the loop, and the last line. *)
Lemma main_run_eq cfg svc w D m urls I S n w1 w2 q tr w3 :
  configured cfg svc D m →
  parseSitemap (sitemapFile cfg) w = (Val (Ok urls), [], w) →
  readCsv (indexedFile cfg) w = (Val (Ok I), [], w1) →
  readCsv (sentFile cfg) w1 = (Val (Ok S), [], w2) →
  todaySent (sentFile cfg) w2 = (Val (Ok n), [], w2) →
  range urls (loop_body svc (sentFile cfg) I S D (pacing m))
    (Quota 0 (wrap64 (D - n))) w2 = (Val q, tr, w3) →
  main cfg svc w
  = (Val tt,
     [(clock w, EvPrint (MsgSleepDuration (pacing m)));
      (clock w2, EvPrint (MsgTodayLimit (wrap64 (D - n))))]
     ++ tr ++ [(clock w3, EvPrint (MsgFinish (count q)))],
     w3).
Proof.
  intros (Hc & HD & Hm & Hm0) Hps HrI HrS Hts Hloop.
  unfold main, indexing.NewService, div. go_unfold.
  rewrite Hc, HD, Hm. go_simpl.
  destruct (Z.eqb_spec m 0) as [?|_]; [done|]. go_simpl.
  fold (pacing m).
  rewrite Hps. go_simpl. rewrite HrI. go_simpl. rewrite HrS. go_simpl.
  rewrite Hts. go_simpl. rewrite Hloop. go_simpl.
  reflexivity.
Qed.

(** ** Deduplication *)

Lemma recorded_app p tr1 tr2 : recorded p (tr1 ++ tr2) = recorded p tr1 ++ recorded p tr2.
Proof. unfold recorded. rewrite writes_app. apply omap_app. Qed.

Lemma recorded_prints p tr : prints tr → recorded p tr = [].
Proof.
  intros (_ & Hw & _)%prints_observed. unfold recorded. rewrite Hw. done.
Qed.

(** What a successful [readCsv] holds: the first fields of the file it found. *)
Lemma readCsv_listed path w s w' url :
  readCsv path w = (Val (Ok s), [], w') →
  listed (fs w) path url → url ∈ s.
Proof.
  intros Hr (r & wr & data & records & record & Hf & Hrows & Hin & H0).
  destruct (readCsv_spec path w) as (o & w'' & Hr' & _ & _ & _ & Ho).
  rewrite Hr in Hr'. simplify_eq.
  destruct Ho as [_ [(Hnone & _)|(data' & records' & Hf' & Hrows' & _ & _ & _ & ->)]];
    [congruence|].
  rewrite Hf in Hf'. simplify_eq.
  apply first_fields_elem. right. exists record. split; [done|]. by rewrite H0.
Qed.

Lemma readCsv_keeps path w o w' p url :
  readCsv path w = (o, [], w') → listed (fs w) p url → listed (fs w') p url.
Proof.
  intros Hr (r & wr & data & records & record & Hf & Hrows & Hin & H0).
  destruct (readCsv_spec path w) as (o' & w'' & Hr' & _ & _ & Hkeep & _).
  rewrite Hr in Hr'. simplify_eq.
  exists r, wr, data, records, record. split; [by apply Hkeep|done].
Qed.

(** C1, the claim as written fails: the two maps are read once, before the
    loop, and the loop never adds to them.  A sitemap that lists "A" twice
    has "A" published twice and recorded twice in one run. *)
Lemma resent_within_a_run :
  let '(o, tr, w') := main (settings "200" "60") always_ok (boot (disk ["A"; "A"] [])) in
  o = Val tt
  ∧ published tr = ["A"; "A"]
  ∧ fs w' !! "sent.csv"
    = Some (Regular true true (Csv [["A"; "2024-04-05T00:00:00Z"];
                                    ["A"; "2024-04-05T00:00:01Z"]]))
  ∧ ¬ NoDup (recorded "sent.csv" tr).
Proof.
  vm_compute. split_and!; try reflexivity.
  intros H. apply NoDup_cons in H as [H _]. apply H. left.
Qed.

Lemma main_recorded_published cfg svc w :
  recorded (sentFile cfg) ((main cfg svc w).1.2) `sublist_of` published ((main cfg svc w).1.2).
Proof.
  destruct (main_cases cfg svc w)
    as [(o & tr & w' & -> & _ & _ & Hpr)
       |(D & m & urls & I & S & n & w1 & w2 & q & tr & w3 & pre & post
         & _ & _ & _ & _ & _ & Hloop & Hpre & Hpost & ->)]; simpl.
  - rewrite recorded_prints by done. apply sublist_nil_l.
  - destruct (loop_summary svc (sentFile cfg) I S D (pacing m) urls
                (Quota 0 (wrap64 (D - n))) w2)
      as (q' & tr' & w3' & Hloop' & _ & Hsub & _).
    rewrite Hloop in Hloop'. simplify_eq.
    rewrite !recorded_app, !published_app.
    rewrite (recorded_prints _ pre), (recorded_prints _ post) by done.
    destruct (prints_observed _ Hpre) as (-> & _).
    destruct (prints_observed _ Hpost) as (-> & _).
    simpl. rewrite !app_nil_r. done.
Qed.

(** What a run publishes: the URLs of the sitemap, in order, less those the
    two maps held when the loop began. *)
Lemma main_published cfg svc w :
  published ((main cfg svc w).1.2) = []
  ∨ ∃ urls I S w1 w2,
      parseSitemap (sitemapFile cfg) w = (Val (Ok urls), [], w)
      ∧ readCsv (indexedFile cfg) w = (Val (Ok I), [], w1)
      ∧ readCsv (sentFile cfg) w1 = (Val (Ok S), [], w2)
      ∧ published ((main cfg svc w).1.2)
        = filter (fun u => isKnown I S u = false) urls.
Proof.
  destruct (main_cases cfg svc w)
    as [(o & tr & w' & -> & _ & _ & Hpr)
       |(D & m & urls & I & S & n & w1 & w2 & q & tr & w3 & pre & post
         & _ & Hps & HrI & HrS & _ & Hloop & Hpre & Hpost & ->)]; simpl.
  - left. by destruct (prints_observed _ Hpr) as (-> & _).
  - right. exists urls, I, S, w1, w2. split_and!; try done.
    destruct (loop_summary svc (sentFile cfg) I S D (pacing m) urls
                (Quota 0 (wrap64 (D - n))) w2)
      as (q' & tr' & w3' & Hloop' & Hpub & _).
    rewrite Hloop in Hloop'. simplify_eq.
    rewrite !published_app.
    destruct (prints_observed _ Hpre) as (-> & _).
    destruct (prints_observed _ Hpost) as (-> & _).
    simpl. rewrite app_nil_r. done.
Qed.

(** C1, as amended: the two maps are those read at start: when the start
    succeeds, a run publishes every occurrence in the sitemap of a URL that
    neither map holds.  The URLs recorded in the sent file during a run are
    a subsequence of the URLs published, themselves a subsequence of the
    sitemap; a URL is recorded at most as often as the sitemap lists it,
    hence at most once when the sitemap lists no URL twice. *)
Theorem recorded_once_per_listing cfg svc w wr urls :
  sitemapFile cfg ≠ "" →
  fs w !! sitemapFile cfg = Some (Regular true wr (Xml urls)) →
  let tr := (main cfg svc w).1.2 in
  (∀ D m I S n w1 w2,
     configured cfg svc D m →
     readCsv (indexedFile cfg) w = (Val (Ok I), [], w1) →
     readCsv (sentFile cfg) w1 = (Val (Ok S), [], w2) →
     todaySent (sentFile cfg) w2 = (Val (Ok n), [], w2) →
     published tr = filter (fun u => isKnown I S u = false) urls)
  ∧ recorded (sentFile cfg) tr `sublist_of` published tr
  ∧ published tr `sublist_of` urls
  ∧ (NoDup urls → NoDup (recorded (sentFile cfg) tr)).
Proof.
  intros Hne Hf tr.
  assert (Hps : parseSitemap (sitemapFile cfg) w = (Val (Ok urls), [], w)).
  { destruct (parseSitemap_spec (sitemapFile cfg) w) as (r & Hps & Hiff).
    rewrite Hps. rewrite (proj2 (Hiff urls)); [done|]. eauto. }
  assert (H1 : recorded (sentFile cfg) tr `sublist_of` published tr)
    by apply main_recorded_published.
  assert (H2 : published tr `sublist_of` urls).
  { subst tr. destruct (main_published cfg svc w)
      as [->|(urls' & I & S & w1 & w2 & Hps' & _ & _ & ->)]; [apply sublist_nil_l|].
    rewrite Hps in Hps'. injection Hps' as <-. apply sublist_filter. }
  split_and!; [|done..|].
  - intros D m I S n w1 w2 Hcfg HrI HrS Hts. subst tr.
    destruct (main_reaches_loop cfg svc w D m urls I S n w1 w2 Hcfg Hps HrI HrS Hts)
      as (q & tr & w3 & pre & post & Hloop & Hpre & Hpost & ->). simpl.
    destruct (loop_summary svc (sentFile cfg) I S D (pacing m) urls
                (Quota 0 (wrap64 (D - n))) w2)
      as (q' & tr' & w3' & Hloop' & Hpub & _).
    rewrite Hloop in Hloop'. injection Hloop' as <- <- <-.
    rewrite !published_app.
    destruct (prints_observed _ Hpre) as (-> & _).
    destruct (prints_observed _ Hpost) as (-> & _).
    simpl. rewrite app_nil_r. done.
  - intros Hnd. eapply sublist_NoDup; [exact Hnd|]. by trans (published tr).
Qed.

Lemma recorded_once_per_listing_witness :
  let w := boot (disk ["A"; "B"] [["B"]]) in
  let tr := (main (settings "200" "60") always_ok w).1.2 in
  published tr = filter (fun u => isKnown {[ "B" ]} ∅ u = false) ["A"; "B"]
  ∧ NoDup (recorded "sent.csv" tr).
Proof.
  intros w tr.
  pose proof (recorded_once_per_listing (settings "200" "60") always_ok w false ["A"; "B"]
                ltac:(discriminate) eq_refl) as H.
  cbv zeta in H. destruct H as (Hpub & _ & _ & Hnd).
  split.
  - apply (Hpub 200 60 {[ "B" ]} ∅ 0 w
             (World (<["sent.csv" := Regular true true (Csv [])]> (fs w)) midnight 0)).
    + repeat split. discriminate.
    + vm_compute. reflexivity.
    + vm_compute. reflexivity.
    + vm_compute. reflexivity.
  - apply Hnd. apply (bool_decide_unpack _). vm_compute. exact I.
Defined.

(** C2: a URL found in the indexed file or in the sent file at start is
    skipped by the loop body, which then returns the counter and the limit
    it was given, emits nothing and leaves the world as it is; and no run of
    [main] publishes or records such a URL. *)
Theorem known_url_never_published :
  (∀ svc sentFile indexedUrls sentUrls rateLimitDayInt sleepDur url q w,
     contains indexedUrls url = true ∨ contains sentUrls url = true →
     loop_body svc sentFile indexedUrls sentUrls rateLimitDayInt sleepDur url q w
     = (Val q, [], w))
  ∧ (∀ cfg svc w url,
       listed (fs w) (indexedFile cfg) url ∨ listed (fs w) (sentFile cfg) url →
       (url ∉ published ((main cfg svc w).1.2))
       ∧ (url ∉ recorded (sentFile cfg) ((main cfg svc w).1.2))).
Proof.
  split.
  - intros * H. apply loop_body_known. unfold isKnown.
    destruct H as [-> | ->]; [done|]. by rewrite orb_true_r.
  - intros cfg svc w url Hl.
    assert (Hpub : url ∉ published ((main cfg svc w).1.2)).
    { destruct (main_published cfg svc w)
        as [->|(urls & I & S & w1 & w2 & _ & HrI & HrS & ->)]; [apply not_elem_of_nil|].
      intros [Hk _]%list_elem_of_filter.
      assert (url ∈ I ∨ url ∈ S) as Hin.
      { destruct Hl as [Hl|Hl].
        - left. eapply readCsv_listed; eauto.
        - right. eapply readCsv_listed; [exact HrS|].
          eapply readCsv_keeps; eauto. }
      unfold isKnown in Hk. apply orb_false_iff in Hk as [Hk1 Hk2].
      unfold contains in *. apply bool_decide_eq_false in Hk1, Hk2. tauto. }
    split; [done|].
    intros Hin. apply Hpub.
    eapply elem_of_sublist; [exact Hin|]. apply main_recorded_published.
Qed.

Lemma known_url_never_published_witness :
  loop_body always_ok "sent.csv" {[ "B" ]} ∅ 200 1100000000 "B" (Quota 0 200)
    (boot (disk ["A"; "B"] [["B"]]))
  = (Val (Quota 0 200), [], boot (disk ["A"; "B"] [["B"]]))
  ∧ "B" ∉ published
            ((main (settings "200" "60") always_ok (boot (disk ["A"; "B"] [["B"]]))).1.2).
Proof.
  split.
  - apply (proj1 known_url_never_published). left. vm_compute. reflexivity.
  - apply (proj2 known_url_never_published (settings "200" "60") always_ok
             (boot (disk ["A"; "B"] [["B"]])) "B").
    left. exists true, true, (Csv [["B"]]), [["B"]], ["B"].
    split_and!; [vm_compute; reflexivity | reflexivity | left | reflexivity].
Defined.

(** ** The daily quota *)

Lemma incr_small x : - 2 ^ 63 ≤ x < 2 ^ 63 - 1 → incr x = x + 1.
Proof.
  intros H. unfold incr, wrap64.
  rewrite Z.mod_small by lia. lia.
Qed.

Lemma first_day_app_clear tr1 tr2 :
  forallb (fun te => negb (is_pause_notice te)) tr1 = true →
  first_day (tr1 ++ tr2) = tr1 ++ first_day tr2.
Proof.
  induction tr1 as [|te tr1 IH]; simpl; [done|].
  intros [Hte Hrest]%andb_true_iff. destruct (is_pause_notice te); [done|].
  by rewrite IH.
Qed.

Lemma first_day_app_print tr t msg :
  published (first_day (tr ++ [(t, EvPrint msg)])) = published (first_day tr).
Proof.
  induction tr as [|te tr IH]; simpl.
  - by destruct msg.
  - destruct (is_pause_notice te); [done|].
    assert (Hc : ∀ l, published (te :: l) = published [te] ++ published l)
      by (intros l; apply (published_app [te])).
    by rewrite (Hc (first_day (tr ++ _))), (Hc (first_day tr)), IH.
Qed.

Lemma pauses_app tr1 tr2 : pauses (tr1 ++ tr2) = (pauses tr1 + pauses tr2)%nat.
Proof. unfold pauses. by rewrite filter_app, length_app. Qed.

(** C3, where the code departs from the claim: daily limit 1, three new
    URLs, a service that always answers 200.  "A" is sent on 2024-04-05;
    "B" triggers the day of sleep, which resets the counter to zero after
    "B" was counted, so "B" and "C" are both sent and recorded on
    2024-04-06: two sends on one date against a limit of one. *)
Lemma daily_limit_exceeded_after_pause :
  let '(o, tr, w') := main (settings "1" "60") always_ok (boot (disk ["A"; "B"; "C"] [])) in
  o = Val tt
  ∧ strconv.Atoi (rateLimitDay (settings "1" "60")) = Ok 1
  ∧ sleeps tr = [1100000000; 24 * time.Hour; 1100000000; 1100000000]
  ∧ fs w' !! "sent.csv"
    = Some (Regular true true (Csv [["A"; "2024-04-05T00:00:00Z"];
                                    ["B"; "2024-04-06T00:00:01Z"];
                                    ["C"; "2024-04-06T00:00:02Z"]]))
  ∧ time.FormatDate (clock w') = "2024-04-06"
  ∧ (todaySent "sent.csv" w').1.1 = Val (Ok 2).
Proof. vm_compute. split_and!; reflexivity. Qed.

Lemma first_day_clear tr :
  forallb (fun te => negb (is_pause_notice te)) tr = true → first_day tr = tr ∧ pauses tr = 0%nat.
Proof.
  induction tr as [|te tr IH]; simpl; [done|].
  intros [Hte Hrest]%andb_true_iff. destruct (IH Hrest) as [IH1 IH2].
  unfold pauses in *. rewrite filter_cons.
  destruct (is_pause_notice te); [done|]. rewrite IH1. by rewrite decide_False.
Qed.

(** The loop up to its first day of sleep: it tries the URLs that are not
    known for as long as the limit of the day leaves room, whatever the
    service answers, and sleeps a day when one more is left. *)
Lemma loop_first_pause svc sentFile indexedUrls sentUrls rateLimitDayInt sleepDur urls q w :
  - 2 ^ 63 ≤ count q < 2 ^ 63 - 1 →
  todayLimit q < 2 ^ 63 - 1 →
  ∃ q' tr w',
    range urls (loop_body svc sentFile indexedUrls sentUrls rateLimitDayInt sleepDur) q w
    = (Val q', tr, w')
    ∧ published (first_day tr)
      = take (Z.to_nat (todayLimit q - count q))
          (filter (fun u => isKnown indexedUrls sentUrls u = false) urls)
    ∧ (pauses tr = 0%nat
       ↔ (length (filter (fun u => isKnown indexedUrls sentUrls u = false) urls)
          ≤ Z.to_nat (todayLimit q - count q))%nat).
Proof.
  revert q w. induction urls as [|url urls IH]; intros q w Hc HL.
  - eexists _, _, _. split; [reflexivity|]. rewrite filter_nil, take_nil.
    split; [done|]. split; [simpl; lia|done].
  - rewrite range_cons, filter_cons.
    destruct (isKnown indexedUrls sentUrls url) eqn:Hk.
    { rewrite loop_body_known by done. rewrite decide_False by done.
      destruct (IH q w Hc HL) as (q' & tr & w' & -> & Hb). eauto. }
    rewrite decide_True by done.
    destruct (loop_body_shape svc sentFile indexedUrls sentUrls rateLimitDayInt sleepDur
                url q w Hk) as (post & w1 & -> & Hcase).
    assert (Hpost : forallb (fun te => negb (is_pause_notice te)) post = true
                    ∧ published post = []).
    { destruct Hcase as [(e & _ & -> & _)|[(code & _ & _ & -> & _)
                        |[(e & _ & _ & -> & _)|(wa & _ & _ & -> & _)]]]; done. }
    destruct Hpost as [Hclear Hnone].
    rewrite incr_small in * by done.
    destruct (Z.gtb_spec (count q + 1) (todayLimit q)) as [Hgt|Hle].
    + destruct (loop_summary svc sentFile indexedUrls sentUrls rateLimitDayInt sleepDur
                  urls (Quota 0 rateLimitDayInt) w1) as (q2 & tr2 & w2 & -> & _).
      eexists _, _, _. split; [reflexivity|].
      replace (Z.to_nat (todayLimit q - count q)) with 0%nat by lia.
      split; [done|]. cbn [length]. split; [|lia].
      rewrite !pauses_app. intros Hp. exfalso. revert Hp. by vm_compute.
    + destruct (IH (Quota (count q + 1) (todayLimit q)) w1)
        as (q2 & tr2 & w2 & -> & Hfd & Hp); [simpl; lia..|].
      cbn [count todayLimit] in Hfd, Hp.
      eexists _, _, _. split; [reflexivity|]. cbv iota.
      replace (Z.to_nat (todayLimit q - count q))
        with (S (Z.to_nat (todayLimit q - (count q + 1)))) by lia.
      destruct (first_day_clear _ Hclear) as [_ Hp0].
      split.
      * rewrite first_day_app_clear.
        2: { cbn [app forallb]. by rewrite Hclear. }
        rewrite !published_app, Hnone, Hfd. done.
      * rewrite !pauses_app, Hp0. cbn [length].
        change (pauses []) with 0%nat.
        change (pauses [(clock w, EvPrint (MsgSending url));
                        (clock w, EvPublish url (reply (respond svc (calls w) url)))])
          with 0%nat.
        destruct Hp as [Hp1 Hp2]. split; intros H.
        -- assert (H0 : pauses tr2 = 0%nat) by lia. specialize (Hp1 H0). lia.
        -- rewrite Hp2; lia.
Qed.

(** C4, the claim as written fails: the counter counts the URLs tried, not
    the URLs sent.  With a daily limit of 1, no record of today and a
    service that answers 503 to every call, the run sleeps a day before
    "B" although it has sent no URL: 0 does not exceed the limit of the
    day, 1. *)
Lemma pause_with_nothing_sent :
  let '(o, tr, w') := main (settings "1" "60") unavailable (boot (disk ["A"; "B"] [])) in
  o = Val tt
  ∧ tr = [(midnight, EvPrint (MsgSleepDuration 1100000000));
          (midnight, EvPrint (MsgTodayLimit 1));
          (midnight, EvPrint (MsgSending "A"));
          (midnight, EvPublish "A" (Ok 503));
          (midnight + 250000000, EvPrint (MsgStatusCode 503));
          (midnight + 250000000, EvPrint MsgSleeping);
          (midnight + 250000000, EvSleep (24 * time.Hour));
          (midnight + 250000000 + 24 * time.Hour, EvPrint (MsgSending "B"));
          (midnight + 250000000 + 24 * time.Hour, EvPublish "B" (Ok 503));
          (midnight + 500000000 + 24 * time.Hour, EvPrint (MsgStatusCode 503));
          (midnight + 500000000 + 24 * time.Hour, EvPrint (MsgFinish 0))]
  ∧ pauses tr = 1%nat
  ∧ acknowledged tr = []
  ∧ recorded "sent.csv" tr = []
  ∧ fs w' !! "sent.csv" = Some (Regular true true (Csv []))
  ∧ ¬ (Z.of_nat (length (acknowledged (first_day tr))) > 1).
Proof. vm_compute. split_and!; try reflexivity. discriminate. Qed.

(** C4, as amended: the counter counts the URLs tried, not the URLs sent.
    For a URL that is not known the loop body first counts it, whatever
    the call will return.  When the counter then exceeds the limit of the
    day it prints, sleeps 24 hours, sets the counter to zero and the limit
    to the full daily limit, and publishes this same URL when it wakes;
    otherwise it publishes the URL at once and keeps the incremented
    counter and the limit.  In a run whose start succeeds, every URL that
    is not known is published, in the order of the sitemap; those tried
    before the first day of sleep are exactly the first ones that the
    limit of the day has room for, whatever the API answers, and the run
    never sleeps a day when there are no more of them than that. *)
Theorem pause_when_tried_exceed_limit :
  (∀ svc sentFile indexedUrls sentUrls rateLimitDayInt sleepDur url q w,
     isKnown indexedUrls sentUrls url = false →
     let r := reply (respond svc (calls w) url) in
     ∃ q' tr rest w',
       loop_body svc sentFile indexedUrls sentUrls rateLimitDayInt sleepDur url q w
       = (Val q', tr, w')
       ∧ published tr = [url]
       ∧ if incr (count q) >? todayLimit q
         then tr = (clock w, EvPrint MsgSleeping)
                     :: (clock w, EvSleep (24 * time.Hour))
                     :: (clock w + 24 * time.Hour, EvPrint (MsgSending url))
                     :: (clock w + 24 * time.Hour, EvPublish url r) :: rest
              ∧ pauses tr = 1%nat
              ∧ q' = Quota 0 rateLimitDayInt
         else tr = (clock w, EvPrint (MsgSending url)) :: (clock w, EvPublish url r) :: rest
              ∧ pauses tr = 0%nat
              ∧ q' = Quota (incr (count q)) (todayLimit q))
  ∧ (∀ cfg svc w D m urls I S n w1 w2,
       configured cfg svc D m →
       parseSitemap (sitemapFile cfg) w = (Val (Ok urls), [], w) →
       readCsv (indexedFile cfg) w = (Val (Ok I), [], w1) →
       readCsv (sentFile cfg) w1 = (Val (Ok S), [], w2) →
       todaySent (sentFile cfg) w2 = (Val (Ok n), [], w2) →
       wrap64 (D - n) < 2 ^ 63 - 1 →
       let tr := (main cfg svc w).1.2 in
       let tried := filter (fun u => isKnown I S u = false) urls in
       let room := Z.to_nat (wrap64 (D - n)) in
       published tr = tried
       ∧ published (first_day tr) = take room tried
       ∧ (pauses tr = 0%nat ↔ (length tried ≤ room)%nat)).
Proof.
  split.
  - intros svc sentFile indexedUrls sentUrls rateLimitDayInt sleepDur url q w Hk r.
    destruct (loop_body_shape svc sentFile indexedUrls sentUrls rateLimitDayInt sleepDur
                url q w Hk) as (post & w' & Hb & Hcase).
    assert (Hpost : pauses post = 0%nat ∧ published post = []).
    { destruct Hcase as [(e & _ & -> & _)|[(code & _ & _ & -> & _)
                        |[(e & _ & _ & -> & _)|(wa & _ & _ & -> & _)]]]; done. }
    destruct Hpost as [Hp0 Hnone].
    eexists _, _, post, w'. split; [exact Hb|].
    rewrite !published_app, !pauses_app, Hnone, Hp0.
    destruct (incr (count q) >? todayLimit q); done.
  - intros cfg svc w D m urls I S n w1 w2 Hcfg Hps HrI HrS Hts Hlim tr tried room.
    subst tr tried room.
    destruct (loop_first_pause svc (sentFile cfg) I S D (pacing m) urls
                (Quota 0 (wrap64 (D - n))) w2) as (q & tr & w3 & Hloop & Hfd & Hp);
      [cbn [count]; lia|done|].
    destruct (loop_summary svc (sentFile cfg) I S D (pacing m) urls
                (Quota 0 (wrap64 (D - n))) w2) as (q' & tr' & w3' & Hloop' & Hpub & _).
    rewrite Hloop in Hloop'. injection Hloop' as <- <- <-.
    rewrite (main_run_eq cfg svc w D m urls I S n w1 w2 q tr w3) by done.
    cbn [count todayLimit] in Hfd, Hp. rewrite Z.sub_0_r in Hfd, Hp.
    cbn [fst snd]. split_and!.
    + rewrite !published_app, Hpub. cbn [published omap app]. by rewrite app_nil_r.
    + rewrite first_day_app_clear by done.
      rewrite published_app. cbn [published omap app].
      rewrite first_day_app_print. done.
    + rewrite !pauses_app. rewrite <- Hp.
      change (pauses [(clock w3, EvPrint (MsgFinish (count q)))]) with 0%nat.
      match goal with
      | |- (pauses ?pre + _ = _)%nat ↔ _ => change (pauses pre) with 0%nat
      end.
      split; intros; lia.
Qed.

Lemma pause_when_tried_exceed_limit_witness :
  (∃ q' tr rest w',
     loop_body always_ok "sent.csv" ∅ ∅ 1 1100000000 "B" (Quota 1 1) (boot (disk ["A"; "B"] []))
     = (Val q', tr, w')
     ∧ published tr = ["B"]
     ∧ tr = (midnight, EvPrint MsgSleeping)
              :: (midnight, EvSleep (24 * time.Hour))
              :: (midnight + 24 * time.Hour, EvPrint (MsgSending "B"))
              :: (midnight + 24 * time.Hour, EvPublish "B" (Ok 200)) :: rest
     ∧ pauses tr = 1%nat
     ∧ q' = Quota 0 1)
  ∧ (let tr := (main (settings "2" "60") unavailable (boot (disk ["A"; "B"; "C"] []))).1.2 in
     published tr = ["A"; "B"; "C"]
     ∧ published (first_day tr) = ["A"; "B"]
     ∧ pauses tr ≠ 0%nat).
Proof.
  split.
  - assert (Hk : isKnown ∅ ∅ "B" = false) by (vm_compute; reflexivity).
    pose proof (proj1 pause_when_tried_exceed_limit always_ok "sent.csv" ∅ ∅ 1 1100000000
                  "B" (Quota 1 1) (boot (disk ["A"; "B"] [])) Hk) as H.
    cbv zeta in H. destruct H as (q' & tr & rest & w' & H1 & H2 & H3).
    exists q', tr, rest, w'. split; [exact H1|]. split; [exact H2|]. exact H3.
  - intros tr.
    set (w := boot (disk ["A"; "B"; "C"] [])) in *.
    set (w2 := World (<["sent.csv" := Regular true true (Csv [])]> (fs w)) midnight 0).
    assert (Hcfg : configured (settings "2" "60") unavailable 2 60)
      by (repeat split; discriminate).
    assert (Hps : parseSitemap "sitemap.xml" w = (Val (Ok ["A"; "B"; "C"]), [], w))
      by (vm_compute; reflexivity).
    assert (HrI : readCsv "indexed.csv" w = (Val (Ok ∅), [], w))
      by (vm_compute; reflexivity).
    assert (HrS : readCsv "sent.csv" w = (Val (Ok ∅), [], w2))
      by (vm_compute; reflexivity).
    assert (Hts : todaySent "sent.csv" w2 = (Val (Ok 0), [], w2))
      by (vm_compute; reflexivity).
    assert (Hlim : wrap64 (2 - 0) < 2 ^ 63 - 1) by (vm_compute; reflexivity).
    pose proof (proj2 pause_when_tried_exceed_limit (settings "2" "60") unavailable w 2 60
                  ["A"; "B"; "C"] ∅ ∅ 0 w w2 Hcfg Hps HrI HrS Hts Hlim) as H.
    cbv zeta in H. destruct H as (H1 & H2 & H3).
    split; [exact H1|]. split; [exact H2|].
    intros H0. apply H3 in H0. revert H0. vm_compute. lia.
Defined.




(** ** The per-minute limit *)

(** No wrap-around happens in the computation of the pause. *)
Lemma pacing_eq m :
  m ≠ 0 → pacing m = Z.quot time.Minute m + 100 * time.Millisecond.
Proof.
  intros Hm.
  assert (Hq : - time.Minute ≤ Z.quot time.Minute m ≤ time.Minute).
  { change time.Minute with 60000000000.
    assert (H0 : 0 ≤ 60000000000) by lia.
    destruct (Z.lt_trichotomy m 0) as [Hneg|[?|Hpos]]; [|done|].
    - assert (Hq : Z.quot 60000000000 m = - Z.quot 60000000000 (- m)).
      { rewrite <- Z.quot_opp_r by lia. f_equal. lia. }
      rewrite Hq, Z.quot_div_nonneg by lia.
      pose proof (Z.div_pos 60000000000 (- m) H0 ltac:(lia)).
      pose proof (Z.div_le_upper_bound 60000000000 (- m) 60000000000 ltac:(lia) ltac:(nia)).
      lia.
    - rewrite Z.quot_div_nonneg by lia.
      pose proof (Z.div_pos 60000000000 m H0 ltac:(lia)).
      pose proof (Z.div_le_upper_bound 60000000000 m 60000000000 ltac:(lia) ltac:(nia)).
      lia. }
  unfold pacing, wrap64.
  change time.Minute with 60000000000 in *.
  change (time.Millisecond * 100) with 100000000.
  change (100 * time.Millisecond) with 100000000.
  rewrite (Z.mod_small (Z.quot 60000000000 m + 2 ^ 63)) by lia.
  rewrite Z.mod_small by lia. lia.
Qed.





(** ** Loading the two files *)

(** C6, the claim as written fails: [readCsv] opens both files with
    O_RDWR|O_CREATE, so an absent indexed file is created and read as an
    empty set, and the run goes on. *)
Lemma absent_indexed_file_is_created :
  let w := boot {[ "sitemap.xml" := Regular true false (Xml ["A"]) ]} in
  let '(o, tr, w') := main (settings "200" "60") always_ok w in
  fs w !! "indexed.csv" = None
  ∧ o = Val tt
  ∧ published tr = ["A"]
  ∧ fs w' !! "indexed.csv" = Some (Regular true true (Csv [])).
Proof. vm_compute. split_and!; reflexivity. Qed.

(** C6, as amended: [readCsv], which loads the indexed file and the sent
    file alike, creates an absent file and returns the empty set; a path
    that exists but is not a file open to reading and writing makes it
    return an IO error; and such an error on either file stops [main] with
    the message of that file. *)
Theorem load_creates_absent_file path w :
  path ≠ "" →
  (fs w !! path = None →
     readCsv path w
     = (Val (Ok ∅), [],
        {| fs := <[path := Regular true true (Csv [])]> (fs w);
           clock := clock w; calls := calls w |}))
  ∧ (∀ n, fs w !! path = Some n →
          (∀ data, n ≠ Regular true true data) →
          ∃ e, readCsv path w = (Val (Err e), [], w)
               ∧ (e = EACCES ∨ e = EISDIR ∨ e = ENOENT))
  ∧ (∀ cfg svc D m urls e,
       configured cfg svc D m →
       parseSitemap (sitemapFile cfg) w = (Val (Ok urls), [], w) →
       (path = indexedFile cfg →
        readCsv path w = (Val (Err e), [], w) →
        (main cfg svc w).1.1 = Exited "Error reading indexed URLs:" e)
       ∧ (path = sentFile cfg →
          ∀ I w1, readCsv (indexedFile cfg) w = (Val (Ok I), [], w1) →
                  readCsv path w1 = (Val (Err e), [], w1) →
                  (main cfg svc w).1.1 = Exited "Error reading sent URLs:" e)).
Proof.
  intros Hne. split_and!.
  - intros Hf. unfold readCsv, os.OpenFile, csv.ReadAll. go_unfold.
    destruct (String.eqb_spec path "") as [?|_]; [done|].
    rewrite Hf. go_simpl. rewrite lookup_insert_eq. go_simpl. reflexivity.
  - intros n Hf Hn. unfold readCsv, os.OpenFile, csv.ReadAll. go_unfold.
    destruct (String.eqb_spec path "") as [?|_]; [done|].
    rewrite Hf. destruct n as [[] [] data| |]; go_simpl; eauto 6.
    by destruct (Hn data).
  - intros cfg svc D m urls e Hcfg Hps. split.
    + intros -> Hr.
      destruct (stops_at_start_main cfg svc w _ _
                  (stop_indexed cfg svc w D m urls e Hcfg Hps Hr)) as (tr & -> & _).
      done.
    + intros -> I w1 HrI Hr.
      destruct (stops_at_start_main cfg svc w _ _
                  (stop_sent cfg svc w D m urls I w1 e Hcfg Hps HrI Hr)) as (tr & -> & _).
      done.
Qed.

Lemma load_creates_absent_file_witness :
  let locked := <["indexed.csv" := Regular true false (Csv [])]> (disk ["A"] []) in
  readCsv "indexed.csv" (boot ∅)
  = (Val (Ok ∅), [], boot {[ "indexed.csv" := Regular true true (Csv []) ]})
  ∧ (∃ e, readCsv "indexed.csv" (boot locked) = (Val (Err e), [], boot locked)
          ∧ (e = EACCES ∨ e = EISDIR ∨ e = ENOENT))
  ∧ (main (settings "200" "60") always_ok (boot locked)).1.1
    = Exited "Error reading indexed URLs:" EACCES.
Proof.
  intros locked.
  assert (Hcfg : configured (settings "200" "60") always_ok 200 60)
    by (repeat split; discriminate).
  split; [|split].
  - apply (proj1 (load_creates_absent_file "indexed.csv" (boot ∅) ltac:(discriminate))).
    reflexivity.
  - apply (proj1 (proj2 (load_creates_absent_file "indexed.csv" (boot locked)
                           ltac:(discriminate)))
             (Regular true false (Csv []))).
    + reflexivity.
    + discriminate.
  - apply (proj2 (proj2 (load_creates_absent_file "indexed.csv" (boot locked)
                           ltac:(discriminate)))
             (settings "200" "60") always_ok 200 60 ["A"] EACCES Hcfg).
    + vm_compute. reflexivity.
    + reflexivity.
    + vm_compute. reflexivity.
Defined.

(** A loop reading field [i] cannot pass a record that has no such field. *)
Lemma short_record_no_field (records : list (list string)) i :
  Exists (fun record => (length record ≤ i)%nat) records →
  Forall (fun r => is_Some (r !! i)) records → False.
Proof.
  rewrite Exists_exists, Forall_forall. intros (r & Hin & Hlen) HF.
  destruct (HF r Hin) as [x Hx]. apply lookup_lt_Some in Hx. lia.
Qed.

(** Records of one length pass the field-count rule. *)
Lemma check_fields_uniform k (records : list (list string)) :
  (0 < k)%nat → Forall (fun r => length r = k) records →
  csv.check_fields k records = Ok tt ∧ csv.check_fields 0 records = Ok tt.
Proof.
  intros Hk HF.
  assert (H : ∀ rs : list (list string),
            Forall (fun r => length r = k) rs → csv.check_fields k rs = Ok tt).
  { induction 1 as [|r rs Hr _ IH]; simpl; [done|].
    destruct (Nat.ltb_spec 0 k); [|lia].
    rewrite Hr, Nat.eqb_refl. done. }
  split; [by apply H|].
  destruct HF as [|r records Hr HF]; simpl; [done|]. rewrite Hr. by apply H.
Qed.

Lemma check_fields_ragged k (records : list (list string)) :
  (0 < k)%nat →
  Exists (fun r => length r ≠ k) records →
  csv.check_fields k records = Err ErrFieldCount.
Proof.
  intros Hk. induction 1 as [r records Hr|r records _ IH]; simpl.
  - destruct (Nat.ltb_spec 0 k); [|lia].
    destruct (Nat.eqb_spec (length r) k); done.
  - destruct (Nat.ltb_spec 0 k); [|lia].
    destruct (Nat.eqb_spec (length r) k); done.
Qed.

(** Among records that are not empty, one with fewer than two fields and
    one that has not one field are of two lengths. *)
Lemma check_fields_short (records : list (list string)) :
  Forall (fun record => record ≠ []) records →
  Exists (fun record => (length record < 2)%nat) records →
  Exists (fun record => length record ≠ 1%nat) records →
  csv.check_fields 0 records = Err ErrFieldCount.
Proof.
  intros Hne Hshort Hother.
  destruct records as [|first rest]; [by apply Exists_nil in Hshort|].
  apply Forall_cons in Hne as [Hfirst Hne].
  assert (Hk : (0 < length first)%nat) by (destruct first; [done|simpl; lia]).
  simpl. apply check_fields_ragged; [done|].
  destruct (decide (length first = 1%nat)) as [H1|H1].
  - apply Exists_cons in Hother as [?|Hother]; [done|].
    eapply Exists_impl; [exact Hother|]. simpl. intros; lia.
  - apply Exists_cons in Hshort as [?|Hshort]; [lia|].
    rewrite Exists_exists in Hshort. rewrite Exists_exists.
    destruct Hshort as (x & Hin & Hlt). exists x. split; [done|].
    rewrite Forall_forall in Hne. specialize (Hne x Hin).
    destruct x; [done|]. simpl in *. lia.
Qed.

(** C7, the claim as written fails: a sent file whose rows all lack the
    timestamp loads without error, [readCsv] returns its URLs; the run then
    ends on the panic of [todaySent] reading the second field, not on an
    error of the loader. *)
Lemma short_rows_load_then_panic :
  let w := boot (<["sent.csv" := Regular true true (Csv [["A"]; ["B"]])]> (disk ["C"] [])) in
  readCsv "sent.csv" w = (Val (Ok {[ "B"; "A" ]}), [], w)
  ∧ main (settings "200" "60") always_ok w
    = (Panicked (IndexOutOfRange 1 1),
       [(midnight, EvPrint (MsgSleepDuration 1100000000))], w).
Proof. vm_compute. split; reflexivity. Qed.

(** C7, as amended: when the sent file holds a record of fewer than two
    fields, no URL is processed: [main] does not reach its loop, it ends
    with an outcome other than a normal return, having published and
    recorded nothing.  When the start gets as far as the sent file, and the
    file is open to reading and writing: if the records differ in their
    number of fields, loading fails on the field-count error of the csv
    reader, which [log.Fatal] reports on reading the sent URLs; if every
    record has one field only, loading succeeds and the run ends on the
    panic of an index out of range in [todaySent], not on an error. *)
Theorem short_sent_record_stops_run cfg svc w r wr data records :
  sentFile cfg ≠ "" →
  fs w !! sentFile cfg = Some (Regular r wr data) →
  csv.rows data = Some records →
  Exists (fun record => (length record < 2)%nat) records →
  let o := (main cfg svc w).1.1 in
  let tr := (main cfg svc w).1.2 in
  o ≠ Val tt
  ∧ published tr = []
  ∧ (∀ p, writes p tr = [])
  ∧ (∀ D m urls I w1,
       configured cfg svc D m →
       parseSitemap (sitemapFile cfg) w = (Val (Ok urls), [], w) →
       readCsv (indexedFile cfg) w = (Val (Ok I), [], w1) →
       r = true → wr = true →
       Forall (fun record => record ≠ []) records →
       (Exists (fun record => length record ≠ 1%nat) records →
        readCsv (sentFile cfg) w1 = (Val (Err ErrFieldCount), [], w1)
        ∧ o = Exited "Error reading sent URLs:" ErrFieldCount)
       ∧ (Forall (fun record => length record = 1%nat) records →
          (∃ S, readCsv (sentFile cfg) w1 = (Val (Ok S), [], w1))
          ∧ o = Panicked (IndexOutOfRange 1 1))).
Proof.
  intros Hpath Hf Hrows Hshort o tr.
  assert (Hshort' : Exists (fun record : list string => (length record ≤ 1)%nat) records).
  { eapply Exists_impl; [exact Hshort|]. simpl. intros; lia. }
  (* the sent file is still there when [readCsv] and [todaySent] open it *)
  assert (Hreach : ∀ I w1 S w2 n,
            readCsv (indexedFile cfg) w = (Val (Ok I), [], w1) →
            readCsv (sentFile cfg) w1 = (Val (Ok S), [], w2) →
            todaySent (sentFile cfg) w2 = (Val (Ok n), [], w2) → False).
  { intros I w1 S w2 n HrI HrS Hts.
    destruct (readCsv_spec (indexedFile cfg) w) as (o1 & w1' & H1 & _ & _ & Hkeep & _).
    rewrite HrI in H1. simplify_eq. apply Hkeep in Hf.
    destruct (readCsv_spec (sentFile cfg) w1') as (o2 & w2' & H2 & _ & _ & _ & Ho2).
    rewrite HrS in H2. simplify_eq.
    destruct Ho2 as [_ [(Hnone & _)|(data' & records' & Hf' & _ & -> & _)]]; [congruence|].
    destruct (todaySent_spec (sentFile cfg) w1') as (o3 & H3 & Ho3).
    rewrite Hts in H3. simplify_eq.
    destruct Ho3 as (wr' & data'' & records'' & Hf'' & Hrows'' & _ & HF & _).
    rewrite Hf in Hf''. simplify_eq.
    eapply short_record_no_field; eauto. }
  assert (Hstop : ∃ o' tr' w', main cfg svc w = (o', tr', w')
                               ∧ stops_at_start cfg svc w o' w' ∧ o' ≠ Val tt ∧ prints tr').
  { destruct (main_cases cfg svc w)
      as [?|(D & m & urls & I & S & n & w1 & w2 & q & tr' & w3 & pre & post
             & _ & _ & HrI & HrS & Hts & _)]; [done|].
    destruct (Hreach _ _ _ _ _ HrI HrS Hts). }
  destruct Hstop as (o' & tr' & w' & Heq & Hs & Hne & Hpr).
  subst o tr. rewrite Heq. simpl.
  destruct (prints_observed _ Hpr) as (Hp & Hw & _).
  split_and!; try done.
  intros D m urls I w1 Hcfg Hps HrI -> -> Hfull.
  destruct (readCsv_spec (indexedFile cfg) w) as (o1 & w1' & H1 & _ & _ & Hkeep & _).
  rewrite HrI in H1. simplify_eq. apply Hkeep in Hf.
  destruct (readCsv_spec (sentFile cfg) w1') as (o2 & w2 & HrS & _ & _ & _ & Ho2).
  split.
  - intros Hother.
    pose proof (check_fields_short records Hfull Hshort Hother) as Hck.
    destruct o2 as [[S|e]|?|p]; [| | done |].
    + destruct Ho2 as [_ [(Hnone & _)|(data' & records' & Hf' & Hrows' & _ & Hok & _)]];
        [congruence|].
      rewrite Hf in Hf'. simplify_eq. congruence.
    + destruct Ho2 as [-> [Hempty|(n & Hf' & Hck')]]; [done|].
      rewrite Hf in Hf'. simplify_eq. specialize (Hck' _ _ eq_refl Hrows).
      assert (e = ErrFieldCount) as -> by congruence.
      split; [exact HrS|].
      destruct (stops_at_start_det _ _ _ _ _ _ _ Hs
                  (stop_sent cfg svc w D m urls I w1' _ Hcfg Hps HrI HrS)) as [-> _].
      done.
    + destruct Ho2 as (_ & data' & records' & record & Hf' & Hrows' & Hok & _).
      rewrite Hf in Hf'. simplify_eq. congruence.
  - intros Hone.
    destruct (check_fields_uniform 1 records ltac:(lia) Hone) as [_ Hck].
    assert (HrS' : ∃ S, readCsv (sentFile cfg) w1' = (Val (Ok S), [], w1')).
    { destruct o2 as [[S|e]|?|p]; [| | done |].
      - destruct Ho2 as [_ [(Hnone & _)|(data' & records' & _ & _ & -> & _)]];
          [congruence|]. eauto.
      - destruct Ho2 as [-> [Hempty|(n & Hf' & Hck')]]; [done|].
        rewrite Hf in Hf'. simplify_eq. specialize (Hck' _ _ eq_refl Hrows). congruence.
      - destruct Ho2 as (_ & data' & records' & record & Hf' & Hrows' & _ & Hin & Hnone & _).
        rewrite Hf in Hf'. simplify_eq.
        rewrite Forall_forall in Hone. specialize (Hone record Hin).
        apply lookup_ge_None in Hnone. lia. }
    split; [exact HrS'|]. destruct HrS' as [S HrS'].
    destruct (todaySent_spec (sentFile cfg) w1') as (o3 & Hts & Ho3).
    destruct o3 as [[n|e]|?|p]; [| | done |].
    + destruct (Hreach _ _ _ _ _ HrI HrS' Hts).
    + destruct Ho3 as [Hempty|Hck']; [done|].
      specialize (Hck' _ _ _ Hf Hrows). congruence.
    + destruct Ho3 as (wr' & data' & records' & record & Hf' & Hrows' & _ & Hin & _ & ->).
      rewrite Hf in Hf'. simplify_eq.
      rewrite Forall_forall in Hone. rewrite (Hone record Hin) in Hts.
      destruct (stops_at_start_det _ _ _ _ _ _ _ Hs
                  (stop_today_panic cfg svc w D m urls I w1' S w1' _ Hcfg Hps HrI HrS' Hts))
        as [-> _].
      done.
Qed.

Lemma short_sent_record_stops_run_witness :
  let ragged := boot (<["sent.csv" := Regular true true
                          (Csv [["A"; "2024-04-04T10:00:00Z"]; ["B"]])]> (disk ["C"] [])) in
  let short := boot (<["sent.csv" := Regular true true (Csv [["A"]; ["B"]])]>
                       (disk ["C"] [])) in
  published ((main (settings "200" "60") always_ok ragged).1.2) = []
  ∧ (main (settings "200" "60") always_ok ragged).1.1
    = Exited "Error reading sent URLs:" ErrFieldCount
  ∧ published ((main (settings "200" "60") always_ok short).1.2) = []
  ∧ (main (settings "200" "60") always_ok short).1.1 = Panicked (IndexOutOfRange 1 1).
Proof.
  intros ragged short.
  assert (Hcfg : configured (settings "200" "60") always_ok 200 60)
    by (repeat split; discriminate).
  assert (Hrag : Exists (fun record : list string => (length record < 2)%nat)
                   [["A"; "2024-04-04T10:00:00Z"]; ["B"]]).
  { apply Exists_cons_tl, Exists_cons_hd. simpl. lia. }
  assert (Hsh : Exists (fun record : list string => (length record < 2)%nat) [["A"]; ["B"]]).
  { apply Exists_cons_hd. simpl. lia. }
  pose proof (short_sent_record_stops_run (settings "200" "60") always_ok ragged true true
                (Csv [["A"; "2024-04-04T10:00:00Z"]; ["B"]]) _
                ltac:(discriminate) eq_refl eq_refl Hrag) as H.
  pose proof (short_sent_record_stops_run (settings "200" "60") always_ok short true true
                (Csv [["A"]; ["B"]]) _ ltac:(discriminate) eq_refl eq_refl Hsh) as H'.
  cbv zeta in H, H'.
  destruct H as (_ & H2 & _ & H4). destruct H' as (_ & H2' & _ & H4').
  split; [exact H2|]. split; [|split; [exact H2'|]].
  - refine (proj2 (proj1 (H4 200 60 ["C"] ∅ ragged Hcfg _ _ eq_refl eq_refl _) _)).
    + vm_compute. reflexivity.
    + vm_compute. reflexivity.
    + repeat constructor; discriminate.
    + apply Exists_cons_hd. discriminate.
  - refine (proj2 (proj2 (H4' 200 60 ["C"] ∅ short Hcfg _ _ eq_refl eq_refl _) _)).
    + vm_compute. reflexivity.
    + vm_compute. reflexivity.
    + repeat constructor; discriminate.
    + repeat constructor.
Defined.

(** ** Pacing *)

Lemma StronglySorted_lookup {A} (R : A → A → Prop) (l : list A) i j x y :
  StronglySorted R l → (i < j)%nat → l !! i = Some x → l !! j = Some y → R x y.
Proof.
  intros Hs. revert i j. induction Hs as [|a l Hs IH Hall]; intros i j Hij Hi Hj.
  - done.
  - destruct j as [|j]; [lia|]. simpl in Hj.
    destruct i as [|i]; simpl in Hi.
    + simplify_eq. rewrite Forall_forall in Hall. apply Hall.
      by eapply list_elem_of_lookup_2.
    + apply (IH i j); [lia|done..].
Qed.

Lemma writes_prints p tr : prints tr → writes p tr = [].
Proof. intros (_ & Hw & _)%prints_observed. apply Hw. Qed.

(** In a run of [main] each record written is followed by the pause, and
    the times of the writes to the sent file are that pause apart. *)
Lemma main_paced cfg svc w m :
  strconv.Atoi (rateLimitMinute cfg) = Ok m →
  write_then_sleep (pacing m) ((main cfg svc w).1.2)
  ∧ StronglySorted (fun t1 t2 => t1 + Z.max (pacing m) 0 ≤ t2)
      (writes (sentFile cfg) ((main cfg svc w).1.2)).*1.
Proof.
  intros Hm.
  destruct (main_cases cfg svc w)
    as [(o' & tr' & w'' & Heq & _ & _ & Hpr)
       |(D & m' & urls & I & S & n & w1 & w2 & q & tr' & w3 & pre & post
         & Hcfg & _ & _ & _ & _ & Hloop & Hpre & Hpost & Heq)];
    rewrite Heq; simpl.
  - rewrite writes_prints by done. split; [by apply prints_observed|constructor].
  - destruct Hcfg as (_ & _ & Hm' & _). rewrite Hm in Hm'. simplify_eq.
    destruct (loop_summary svc (sentFile cfg) I S D (pacing m') urls
                (Quota 0 (wrap64 (D - n))) w2)
      as (q' & tr'' & w3' & Hloop' & _ & _ & _ & _ & Hsort & Hws).
    rewrite Hloop in Hloop'. simplify_eq. split.
    + repeat apply write_then_sleep_app; try done; by apply prints_observed.
    + rewrite !writes_app, (writes_prints _ pre), (writes_prints _ post) by done.
      simpl. rewrite app_nil_r. done.
Qed.

(** C8: with a per-minute limit [m] other than zero, the pause is
    60s/m + 100ms; in every run each record written to the sent file is
    followed at once by a sleep of that pause, and any two writes to the
    sent file are at least that pause apart.  For a limit of 60 the pause
    is 1.1s, so two successful sends are at least 600ms apart. *)
Theorem sends_are_paced cfg svc w m :
  strconv.Atoi (rateLimitMinute cfg) = Ok m →
  m ≠ 0 →
  let tr := (main cfg svc w).1.2 in
  let sent_at := (writes (sentFile cfg) tr).*1 in
  pacing m = Z.quot time.Minute m + 100 * time.Millisecond
  ∧ write_then_sleep (pacing m) tr
  ∧ (∀ i j t1 t2, (i < j)%nat → sent_at !! i = Some t1 → sent_at !! j = Some t2 →
                  t1 + Z.max (pacing m) 0 ≤ t2)
  ∧ (m = 60 →
     pacing m = 1100 * time.Millisecond
     ∧ ∀ i j t1 t2, (i < j)%nat → sent_at !! i = Some t1 → sent_at !! j = Some t2 →
                    t1 + 600 * time.Millisecond ≤ t2).
Proof.
  intros Hm Hm0 tr sent_at.
  destruct (main_paced cfg svc w m Hm) as [Hws Hsort].
  assert (Hgap : ∀ i j t1 t2, (i < j)%nat → sent_at !! i = Some t1 →
                 sent_at !! j = Some t2 → t1 + Z.max (pacing m) 0 ≤ t2).
  { intros i j t1 t2 Hij Hi Hj.
    exact (StronglySorted_lookup _ _ i j t1 t2 Hsort Hij Hi Hj). }
  split_and!; [by apply pacing_eq|done|done|].
  intros ->.
  assert (Hp : pacing 60 = 1100 * time.Millisecond) by (vm_compute; reflexivity).
  split; [done|].
  intros i j t1 t2 Hij Hi Hj. specialize (Hgap i j t1 t2 Hij Hi Hj).
  rewrite Hp in Hgap. change (1100 * time.Millisecond) with 1100000000 in Hgap.
  change (600 * time.Millisecond) with 600000000. lia.
Qed.

Lemma sends_are_paced_witness :
  let tr := (main (settings "200" "60") always_ok (boot (disk ["A"; "B"] []))).1.2 in
  (writes "sent.csv" tr).*1 = [midnight; midnight + 1100 * time.Millisecond]
  ∧ midnight + 600 * time.Millisecond ≤ midnight + 1100 * time.Millisecond.
Proof.
  intros tr. split; [vm_compute; reflexivity|].
  pose proof (sends_are_paced (settings "200" "60") always_ok (boot (disk ["A"; "B"] []))
                60 eq_refl ltac:(lia)) as H.
  cbv zeta in H. destruct H as (_ & _ & _ & H). destruct (H eq_refl) as [_ Hgap].
  apply (Hgap 0%nat 1%nat); [lia| |]; vm_compute; reflexivity.
Defined.

(** ** Appending and reloading *)

Lemma appendUrlToCsv_csv path url w r records :
  path ≠ "" →
  fs w !! path = Some (Regular r true (Csv records)) →
  appendUrlToCsv path url w
  = (Val None, [(clock w, EvWrite path [url; time.FormatRFC3339 (clock w)])],
     {| fs := <[path := Regular r true
                          (Csv (records ++ [[url; time.FormatRFC3339 (clock w)]]))]> (fs w);
        clock := clock w; calls := calls w |}).
Proof.
  intros Hne Hf. unfold appendUrlToCsv, os.OpenFile, csv.Write. go_unfold.
  destruct (String.eqb_spec path "") as [?|_]; [done|].
  rewrite Hf. go_simpl. rewrite Hf. go_simpl. reflexivity.
Qed.

Lemma appendUrlToCsv_absent path url w :
  path ≠ "" →
  fs w !! path = None →
  appendUrlToCsv path url w
  = (Val None, [(clock w, EvWrite path [url; time.FormatRFC3339 (clock w)])],
     {| fs := <[path := Regular true true (Csv [[url; time.FormatRFC3339 (clock w)]])]> (fs w);
        clock := clock w; calls := calls w |}).
Proof.
  intros Hne Hf. unfold appendUrlToCsv, os.OpenFile, csv.Write. go_unfold.
  destruct (String.eqb_spec path "") as [?|_]; [done|].
  rewrite Hf. go_simpl. rewrite lookup_insert_eq. go_simpl.
  rewrite insert_insert_eq. reflexivity.
Qed.

(** One turn of [appendAll] on a csv file open to writing. *)
Lemma appendAll_step path gap url (errs : list (option error)) w r records :
  path ≠ "" →
  fs w !! path = Some (Regular r true (Csv records)) →
  ∃ ts tr w',
    (time.Sleep gap;; err ← appendUrlToCsv path url; mret (errs ++ [err])) w
    = (Val (errs ++ [None]), tr, w')
    ∧ fs w' !! path = Some (Regular r true (Csv (records ++ [[url; ts]]))).
Proof.
  intros Hne Hf. unfold mbind, Go_bind, bind, time.Sleep. go_simpl.
  rewrite (appendUrlToCsv_csv path url _ r records) by done. go_simpl.
  unfold mret, Go_ret, ret. go_simpl.
  eexists _, _, _. split; [reflexivity|]. simpl. apply lookup_insert_eq.
Qed.

(** Appending to a csv file open to writing adds one record of two fields
    for each URL, in order. *)
Lemma appendAll_csv path gap urls errs w r records :
  path ≠ "" →
  fs w !! path = Some (Regular r true (Csv records)) →
  ∃ tr w' stamps,
    range urls (fun url errs => time.Sleep gap;; err ← appendUrlToCsv path url;
                                mret (errs ++ [err])) errs w
    = (Val (errs ++ replicate (length urls) None), tr, w')
    ∧ length stamps = length urls
    ∧ fs w' !! path
      = Some (Regular r true
                (Csv (records ++ zip_with (fun url ts => [url; ts]) urls stamps))).
Proof.
  intros Hne. revert errs w records.
  induction urls as [|url urls IH]; intros errs w records Hf.
  - exists [], w, []. simpl. rewrite !app_nil_r. done.
  - rewrite range_cons.
    destruct (appendAll_step path gap url errs w r records Hne Hf)
      as (ts & tr1 & w1 & -> & Hf1).
    destruct (IH (errs ++ [None]) w1 _ Hf1) as (tr & w' & stamps & -> & Hlen & Hf').
    eexists _, w', (ts :: stamps). split; [|split].
    + rewrite <- app_assoc. reflexivity.
    + simpl. by rewrite Hlen.
    + rewrite Hf'. simpl. rewrite <- app_assoc. reflexivity.
Qed.

Lemma first_fields_zip (urls stamps : list string) url :
  length stamps = length urls →
  (∃ record, record ∈ zip_with (fun url ts => [url; ts]) urls stamps
             ∧ default "" (record !! 0%nat) = url)
  ↔ url ∈ urls.
Proof.
  revert stamps. induction urls as [|u urls IH]; intros [|ts stamps] Hlen;
    simpl in *; try lia.
  - split; [intros (? & []%elem_of_nil & _)|intros []%elem_of_nil].
  - rewrite elem_of_cons, <- (IH stamps) by lia. split.
    + intros (record & [->|Hin]%elem_of_cons & Hr); [by left|]. right. eauto.
    + intros [->|(record & Hin & Hr)].
      * eexists. split; [left|done].
      * exists record. split; [by right|done].
Qed.

Lemma zip_two_fields (urls stamps : list string) :
  Forall (fun r : list string => length r = 2%nat)
    (zip_with (fun url ts => [url; ts]) urls stamps).
Proof.
  revert stamps. induction urls as [|u urls IH]; intros [|ts stamps]; simpl;
    constructor; auto.
Qed.

(** Reloading a store made of one two-field record per URL. *)
Lemma reload_appended path w (urls stamps : list string) :
  path ≠ "" →
  length stamps = length urls →
  fs w !! path
  = Some (Regular true true (Csv (zip_with (fun url ts => [url; ts]) urls stamps))) →
  ∃ s, readCsv path w = (Val (Ok s), [], w) ∧ ∀ url, url ∈ s ↔ url ∈ urls.
Proof.
  intros Hne Hlen Hf.
  destruct (check_fields_uniform 2 _ ltac:(lia) (zip_two_fields urls stamps)) as [_ Hck].
  destruct (readCsv_spec path w) as (o & w' & Hr & _ & _ & _ & Ho).
  destruct o as [[s|e]|?|p]; [| | done |].
  - destruct Ho as [_ [(Hnone & _)|(data & records & Hf' & Hrows & -> & _ & _ & ->)]];
      [congruence|].
    rewrite Hf in Hf'. injection Hf' as <-. injection Hrows as <-.
    eexists. split; [exact Hr|]. intros url.
    rewrite first_fields_elem, first_fields_zip by done.
    split; [intros [[]%elem_of_empty|?]; done|by right].
  - destruct Ho as [_ [?|(n & Hf' & He)]]; [done|].
    rewrite Hf in Hf'. injection Hf' as <-. rewrite (He _ _ eq_refl eq_refl) in Hck. done.
  - destruct Ho as (_ & data & records & record & Hf' & Hrows & _ & Hin & Hnone & _).
    rewrite Hf in Hf'. injection Hf' as <-. injection Hrows as <-.
    exfalso. pose proof (zip_two_fields urls stamps) as Htwo.
    rewrite Forall_forall in Htwo. specialize (Htwo record Hin).
    apply lookup_ge_None in Hnone. lia.
Qed.

(** C9: appending any URLs one by one to an absent or empty store succeeds
    each time, and reloading the store with [readCsv] then yields a set
    that knows exactly the URLs appended; it has one element per URL when
    the URLs are distinct. *)
Theorem append_then_reload path gap urls w :
  path ≠ "" →
  fs w !! path = None ∨ fs w !! path = Some (Regular true true (Csv [])) →
  ∃ tr w1 s w2,
    appendAll path gap urls w = (Val (replicate (length urls) None), tr, w1)
    ∧ readCsv path w1 = (Val (Ok s), [], w2)
    ∧ (∀ url, isKnown ∅ s url = true ↔ url ∈ urls)
    ∧ (NoDup urls → size s = length urls).
Proof.
  intros Hne Hstore.
  assert (Hknown : ∀ (s : gset string) url, isKnown ∅ s url = true ↔ url ∈ s).
  { intros s url. unfold isKnown, contains.
    rewrite (bool_decide_eq_false_2 (url ∈ (∅ : gset string)))
      by apply not_elem_of_empty.
    simpl. apply bool_decide_eq_true. }
  assert (Hsize : ∀ (s : gset string), (∀ url, url ∈ s ↔ url ∈ urls) →
                                        NoDup urls → size s = length urls).
  { intros s Hs Hnd. rewrite <- (size_list_to_set (C := gset string) urls) by done.
    f_equal. apply set_eq. intros x. by rewrite Hs, elem_of_list_to_set. }
  assert (Hmain : ∃ tr w1 s w2,
            appendAll path gap urls w = (Val (replicate (length urls) None), tr, w1)
            ∧ readCsv path w1 = (Val (Ok s), [], w2)
            ∧ ∀ url, url ∈ s ↔ url ∈ urls).
  { unfold appendAll. destruct Hstore as [Hf|Hf].
    - destruct urls as [|url urls].
      + exists [], w. simpl.
        destruct (readCsv_spec path w) as (o & w' & Hr & _ & _ & _ & Ho).
        destruct o as [[s|e]|?|p]; [| | done |].
        * destruct Ho as [_ [(_ & -> & _)|(? & ? & ? & _)]]; [|congruence].
          exists ∅, w'. split; [done|]. split; [done|].
          intros url. split; [intros []%elem_of_empty|intros []%elem_of_nil].
        * destruct Ho as [_ [?|(n & ? & _)]]; [done|congruence].
        * destruct Ho as (_ & ? & ? & ? & ? & _). congruence.
      + rewrite range_cons.
        unfold mbind at 1 2, Go_bind, bind, time.Sleep. go_simpl.
        rewrite appendUrlToCsv_absent by done. go_simpl.
        unfold mret at 1, Go_ret, ret. go_simpl.
        edestruct (appendAll_csv path gap urls [None]) as (tr & w1 & stamps & -> & Hlen & Hf1);
          [done|apply lookup_insert_eq|].
        destruct (reload_appended path w1 (url :: urls) (_ :: stamps) Hne
                    ltac:(simpl; lia) Hf1) as (s & Hr & Hs).
        eexists _, w1, s, w1. split; [reflexivity|]. done.
    - destruct (appendAll_csv path gap urls [] w true [] Hne Hf)
        as (tr & w1 & stamps & -> & Hlen & Hf1).
      destruct (reload_appended path w1 urls stamps Hne Hlen Hf1) as (s & Hr & Hs).
      eexists _, w1, s, w1. split; [reflexivity|]. done. }
  destruct Hmain as (tr & w1 & s & w2 & Ha & Hr & Hs).
  exists tr, w1, s, w2. split_and!; try done.
  - intros url. rewrite Hknown. apply Hs.
  - by apply Hsize.
Qed.

Lemma append_then_reload_witness :
  ∃ tr w1 s w2,
    appendAll "sent.csv" time.Second ["A"; "B"] (boot ∅) = (Val [None; None], tr, w1)
    ∧ readCsv "sent.csv" w1 = (Val (Ok s), [], w2)
    ∧ (∀ url, isKnown ∅ s url = true ↔ url ∈ ["A"; "B"])
    ∧ size s = 2%nat.
Proof.
  destruct (append_then_reload "sent.csv" time.Second ["A"; "B"] (boot ∅)
              ltac:(discriminate) (or_introl eq_refl))
    as (tr & w1 & s & w2 & H1 & H2 & H3 & H4).
  exists tr, w1, s, w2. split_and!; [exact H1|exact H2|exact H3|].
  apply H4. apply (bool_decide_unpack _). vm_compute. exact I.
Defined.

(** ** Pacing only after a persisted send *)

(** C10: for a URL that is not known, what follows the call to the API is
    the write and the pause when the call returned status 200 without
    error and the append succeeded, and otherwise one printed line and no
    sleep: the body then returns in the very world in which the call
    returned. *)
Theorem pause_only_after_persisted_send svc sentFile indexedUrls sentUrls rateLimitDayInt
    sleepDur url q w :
  isKnown indexedUrls sentUrls url = false →
  let r := reply (respond svc (calls w) url) in
  let w2 := after_publish svc url q w in
  let persisted := r = Ok 200 ∧ (appendUrlToCsv sentFile url w2).1.1 = Val None in
  ∃ q' head t post w',
    loop_body svc sentFile indexedUrls sentUrls rateLimitDayInt sleepDur url q w
    = (Val q', head ++ (t, EvPublish url r) :: post, w')
    ∧ ((persisted
        ∧ post = [(clock w2, EvWrite sentFile [url; time.FormatRFC3339 (clock w2)]);
                  (clock w2, EvSleep sleepDur)]
        ∧ clock w' = clock w2 + Z.max sleepDur 0)
       ∨ (¬ persisted ∧ sleeps post = [] ∧ writes sentFile post = [] ∧ w' = w2)).
Proof.
  intros Hk r w2 persisted.
  destruct (loop_body_unknown svc sentFile indexedUrls sentUrls rateLimitDayInt sleepDur
              url q w Hk) as (post & w' & Hb & _ & Hpost).
  eexists _, (_ ++ [_]), _, post, w'. split.
  { rewrite Hb. rewrite <- app_assoc. reflexivity. }
  destruct Hpost as [(Hr & Ha & -> & Hc)|(Hfail & [m ->] & ->)].
  - left. done.
  - right. split_and!; try done.
    intros [Hr Ha]. destruct Hfail as [?|[e He]]; [done|].
    fold w2 in He. rewrite Ha in He. done.
Qed.

Lemma pause_only_after_persisted_send_witness :
  (∃ q' head t post w',
     loop_body always_ok "sent.csv" ∅ ∅ 200 1100000000 "A" (Quota 0 200) (boot (disk ["A"] []))
     = (Val q', head ++ (t, EvPublish "A" (Ok 200)) :: post, w')
     ∧ sleeps post = [1100000000])
  ∧ (∃ q' head t post w',
       loop_body unavailable "sent.csv" ∅ ∅ 200 1100000000 "A" (Quota 0 200)
         (boot (disk ["A"] []))
       = (Val q', head ++ (t, EvPublish "A" (Ok 503)) :: post, w')
       ∧ sleeps post = [] ∧ clock w' = midnight + 250 * time.Millisecond).
Proof.
  assert (Hk : isKnown ∅ ∅ "A" = false) by (vm_compute; reflexivity).
  split.
  - pose proof (pause_only_after_persisted_send always_ok "sent.csv" ∅ ∅ 200 1100000000
                  "A" (Quota 0 200) (boot (disk ["A"] [])) Hk) as H.
    cbv zeta in H. destruct H as (q' & head & t & post & w' & Hb & Hcase).
    exists q', head, t, post, w'. split; [exact Hb|].
    destruct Hcase as [(_ & -> & _)|(Hn & _)]; [reflexivity|].
    exfalso. apply Hn. split; vm_compute; reflexivity.
  - pose proof (pause_only_after_persisted_send unavailable "sent.csv" ∅ ∅ 200 1100000000
                  "A" (Quota 0 200) (boot (disk ["A"] [])) Hk) as H.
    cbv zeta in H. destruct H as (q' & head & t & post & w' & Hb & Hcase).
    exists q', head, t, post, w'. split; [exact Hb|].
    destruct Hcase as [([Hr _] & _)|(_ & Hs & _ & ->)]; [discriminate Hr|].
    split; [exact Hs|]. vm_compute. reflexivity.
Defined.

(** * Further properties of [main.go] *)

(** ** The effect of one append *)

(** What [appendUrlToCsv] returns and what it does to the world. *)
Lemma appendUrlToCsv_effect path url w :
  ∃ o tr w',
    appendUrlToCsv path url w = (o, tr, w')
    ∧ ((∃ e, o = Val (Some e) ∧ tr = [] ∧ w' = w
             ∧ (path = "" ∨ ∃ n, fs w !! path = Some n ∧ ∀ r data, n ≠ Regular r true data))
       ∨ (o = Val None
          ∧ path ≠ ""
          ∧ tr = [(clock w, EvWrite path [url; time.FormatRFC3339 (clock w)])]
          ∧ clock w' = clock w ∧ calls w' = calls w
          ∧ (∀ p, p ≠ path → fs w' !! p = fs w !! p)
          ∧ (∀ r wr data, fs w !! path = Some (Regular r wr data) →
                          wr = true ∧ ∃ data', fs w' !! path = Some (Regular r wr data'))
          ∧ match fs w !! path with
            | None =>
                fs w' !! path
                = Some (Regular true true (Csv [[url; time.FormatRFC3339 (clock w)]]))
            | Some (Regular r wr (Csv records)) =>
                fs w' !! path
                = Some (Regular r wr
                          (Csv (records ++ [[url; time.FormatRFC3339 (clock w)]])))
            | Some (Regular r wr (CsvOpen records glued)) =>
                fs w' !! path
                = Some (Regular r wr (glued [url; time.FormatRFC3339 (clock w)]))
            | Some n => fs w' !! path = Some n
            end)).
Proof.
  unfold appendUrlToCsv, os.OpenFile, csv.Write. go_unfold.
  destruct (String.eqb_spec path "") as [->|Hne]; go_simpl.
  { eexists _, _, _. split; [reflexivity|]. left. eauto 10. }
  destruct (fs w !! path) as [[r wr data| |]|] eqn:Hf; go_simpl.
  - destruct wr; go_simpl.
    + rewrite Hf. destruct data as [records|locs| |records glued]; go_simpl.
      * eexists _, _, _. split; [reflexivity|]. right. go_simpl.
        split_and!; try done.
        -- intros p Hp. by rewrite lookup_insert_ne.
        -- intros ? ? ? [= <- <- <-]. rewrite lookup_insert_eq. eauto.
        -- by rewrite lookup_insert_eq.
      * eexists _, _, _. split; [reflexivity|]. right. split_and!; try done.
        intros ? ? ? [= <- <- <-]. eauto.
      * eexists _, _, _. split; [reflexivity|]. right. split_and!; try done.
        intros ? ? ? [= <- <- <-]. eauto.
      * eexists _, _, _. split; [reflexivity|]. right. go_simpl.
        split_and!; try done.
        -- intros p Hp. by rewrite lookup_insert_ne.
        -- intros ? ? ? [= <- <- <-]. rewrite lookup_insert_eq. eauto.
        -- by rewrite lookup_insert_eq.
    + eexists _, _, _. split; [reflexivity|]. left. eexists. split_and!; try done.
      right. eexists. split; [done|]. intros ? ? [=].
  - eexists _, _, _. split; [reflexivity|]. left. eexists. split_and!; try done.
    right. eexists. split; [done|]. intros ? ? [=].
  - eexists _, _, _. split; [reflexivity|]. left. eexists. split_and!; try done.
    right. eexists. split; [done|]. intros ? ? [=].
  - rewrite lookup_insert_eq. go_simpl.
    eexists _, _, _. split; [reflexivity|]. right. go_simpl.
    split_and!; try done.
    + intros p Hp. by rewrite insert_insert_eq, lookup_insert_ne.
    + by rewrite insert_insert_eq, lookup_insert_eq.
Qed.

(** X1: [appendUrlToCsv] either fails, leaving the world as it is and
    writing nothing, or writes one record, the URL and the time of the
    call, at the end of the file, which it creates when absent.  On a file
    whose rows all end in a newline that adds exactly one record after the
    records the file holds; on a file whose last row has no final newline
    the bytes continue that row, and the file holds what the lexer makes of
    the whole.  No other file, no permission and neither the clock nor the
    call counter changes. *)
Theorem append_adds_one_record path url w :
  ∃ o tr w',
    appendUrlToCsv path url w = (o, tr, w')
    ∧ ((∃ e, o = Val (Some e) ∧ tr = [] ∧ w' = w
             ∧ (path = "" ∨ ∃ n, fs w !! path = Some n ∧ ∀ r data, n ≠ Regular r true data))
       ∨ (o = Val None
          ∧ path ≠ ""
          ∧ tr = [(clock w, EvWrite path [url; time.FormatRFC3339 (clock w)])]
          ∧ clock w' = clock w ∧ calls w' = calls w
          ∧ (∀ p, p ≠ path → fs w' !! p = fs w !! p)
          ∧ (∀ r wr data, fs w !! path = Some (Regular r wr data) →
                          wr = true ∧ ∃ data', fs w' !! path = Some (Regular r wr data'))
          ∧ match fs w !! path with
            | None =>
                fs w' !! path
                = Some (Regular true true (Csv [[url; time.FormatRFC3339 (clock w)]]))
            | Some (Regular r wr (Csv records)) =>
                fs w' !! path
                = Some (Regular r wr
                          (Csv (records ++ [[url; time.FormatRFC3339 (clock w)]])))
            | Some (Regular r wr (CsvOpen records glued)) =>
                fs w' !! path
                = Some (Regular r wr (glued [url; time.FormatRFC3339 (clock w)]))
            | Some n => fs w' !! path = Some n
            end)).
Proof. exact (appendUrlToCsv_effect path url w). Qed.

(** ** The shape of one turn of the loop *)

Lemma acknowledged_app tr1 tr2 : acknowledged (tr1 ++ tr2) = acknowledged tr1 ++ acknowledged tr2.
Proof. apply omap_app. Qed.

Lemma writes_records_app p tr1 tr2 :
  (writes p (tr1 ++ tr2)).*2 = (writes p tr1).*2 ++ (writes p tr2).*2.
Proof. by rewrite writes_app, fmap_app. Qed.

(** What one turn of the loop does to the files and to the call counter,
    for a known or an unknown URL. *)
Lemma loop_body_effect svc sentFile indexedUrls sentUrls rateLimitDayInt sleepDur url q w :
  ∃ q' tr w',
    loop_body svc sentFile indexedUrls sentUrls rateLimitDayInt sleepDur url q w
    = (Val q', tr, w')
    ∧ (∀ p, p ≠ sentFile → fs w' !! p = fs w !! p)
    ∧ (∀ r wr records,
         fs w !! sentFile = Some (Regular r wr (Csv records)) →
         fs w' !! sentFile
         = Some (Regular r wr (Csv (records ++ (writes sentFile tr).*2))))
    ∧ (∀ r wr data,
         fs w !! sentFile = Some (Regular r wr data) →
         ∃ data', fs w' !! sentFile = Some (Regular r wr data'))
    ∧ (recorded sentFile tr = [] ∨ recorded sentFile tr = acknowledged tr)
    ∧ (sentFile ≠ "" →
       (∃ r data, fs w !! sentFile = Some (Regular r true data)) →
       recorded sentFile tr = acknowledged tr)
    ∧ acknowledged tr `sublist_of` published tr
    ∧ calls w' = (calls w + length (published tr))%nat.
Proof.
  destruct (isKnown indexedUrls sentUrls url) eqn:Hk.
  { rewrite loop_body_known by done. eexists _, _, _. split; [reflexivity|].
    split_and!; simpl; eauto.
    intros r wr records Hf. by rewrite app_nil_r. }
  destruct (loop_body_shape svc sentFile indexedUrls sentUrls rateLimitDayInt sleepDur
              url q w Hk) as (post & w' & -> & Hcase).
  set (w2 := after_publish svc url q w) in *.
  assert (Hfs2 : fs w2 = fs w) by done.
  assert (Hcalls2 : calls w2 = S (calls w)) by done.
  eexists _, _, _. split; [reflexivity|].
  assert (Hpre : ∀ pre : list (Z * event),
            pre = (if incr (count q) >? todayLimit q
                   then [(clock w, EvPrint MsgSleeping); (clock w, EvSleep (24 * time.Hour))]
                   else []) →
            writes sentFile pre = [] ∧ published pre = [] ∧ acknowledged pre = []).
  { intros pre ->. by case_match. }
  destruct (Hpre _ eq_refl) as (Hpw & Hpp & Hpa). clear Hpre.
  unfold recorded.
  rewrite !writes_app, !published_app, !acknowledged_app, Hpw, Hpp, Hpa.
  destruct Hcase as [(e & Hr & -> & ->)|[(code & Hr & Hcode & -> & ->)
                     |[(e & Hr & Ha & -> & ->)|(wa & Hr & Ha & -> & ->)]]];
    rewrite Hr.
  - split_and!; simpl.
    + done.
    + intros r wr records Hf. by rewrite app_nil_r.
    + eauto.
    + by left.
    + done.
    + apply sublist_nil_l.
    + lia.
  - unfold acknowledged at 1 2 3. simpl.
    destruct (Z.eqb_spec code 200); [done|].
    split_and!; simpl.
    + done.
    + intros r wr records Hf. by rewrite app_nil_r.
    + eauto.
    + by left.
    + done.
    + apply sublist_nil_l.
    + lia.
  - split_and!; simpl.
    + done.
    + intros r wr records Hf. by rewrite app_nil_r.
    + eauto.
    + by left.
    + intros Hne (r & data & Hf).
      destruct (appendUrlToCsv_effect sentFile url w2) as (o & tr & w' & Heq & Hcase).
      rewrite Ha in Heq. injection Heq as <- <- <-.
      destruct Hcase as [(e' & _ & _ & _ & [?|(n & Hn & Hno)])|(? & _)]; try done.
      rewrite Hfs2, Hf in Hn. injection Hn as <-. by destruct (Hno r data).
    + done.
    + lia.
  - destruct (appendUrlToCsv_effect sentFile url w2) as (o & tr & w' & Heq & Hcase).
    rewrite Ha in Heq. injection Heq as <- <- <-.
    destruct Hcase as [(e' & ? & _)|(_ & Hne & _ & _ & Hca & Hframe & Hkeep & Hsent)];
      [done|].
    simpl. rewrite String.eqb_refl. simpl.
    split_and!.
    + intros p Hp. rewrite Hframe by done. by rewrite Hfs2.
    + intros r wr records Hf. rewrite Hfs2, Hf in Hsent. by rewrite Hsent.
    + intros r wr data Hf. rewrite <- Hfs2 in Hf. by destruct (Hkeep _ _ _ Hf).
    + by right.
    + done.
    + done.
    + rewrite Hca, Hcalls2. lia.
Qed.

(** What the whole loop does to the files and to the call counter. *)
Lemma loop_effect svc sentFile indexedUrls sentUrls rateLimitDayInt sleepDur urls q w :
  ∃ q' tr w',
    range urls (loop_body svc sentFile indexedUrls sentUrls rateLimitDayInt sleepDur) q w
    = (Val q', tr, w')
    ∧ (∀ p, p ≠ sentFile → fs w' !! p = fs w !! p)
    ∧ (∀ r wr records,
         fs w !! sentFile = Some (Regular r wr (Csv records)) →
         fs w' !! sentFile
         = Some (Regular r wr (Csv (records ++ (writes sentFile tr).*2))))
    ∧ (∀ r wr data,
         fs w !! sentFile = Some (Regular r wr data) →
         ∃ data', fs w' !! sentFile = Some (Regular r wr data'))
    ∧ recorded sentFile tr `sublist_of` acknowledged tr
    ∧ (sentFile ≠ "" →
       (∃ r data, fs w !! sentFile = Some (Regular r true data)) →
       recorded sentFile tr = acknowledged tr)
    ∧ calls w' = (calls w + length (published tr))%nat.
Proof.
  revert q w. induction urls as [|url urls IH]; intros q w.
  - eexists _, _, _. split; [reflexivity|]. split_and!; simpl; eauto.
    intros r wr records Hf. by rewrite app_nil_r.
  - rewrite range_cons.
    destruct (loop_body_effect svc sentFile indexedUrls sentUrls rateLimitDayInt sleepDur
                url q w)
      as (q1 & tr1 & w1 & -> & Hframe1 & Hsent1 & Hkeep1 & Hrec1 & Heq1 & _ & Hcalls1).
    destruct (IH q1 w1)
      as (q2 & tr2 & w2 & -> & Hframe2 & Hsent2 & Hkeep2 & Hrec2 & Heq2 & Hcalls2).
    eexists _, _, _. split; [reflexivity|].
    rewrite recorded_app, acknowledged_app, published_app, writes_records_app.
    split_and!.
    + intros p Hp. by rewrite Hframe2, Hframe1.
    + intros r wr records Hf. rewrite (Hsent2 _ _ _ (Hsent1 _ _ _ Hf)).
      by rewrite <- app_assoc.
    + intros r wr data Hf. destruct (Hkeep1 _ _ _ Hf) as [data1 Hf1]. eauto.
    + destruct Hrec1 as [->| ->]; simpl.
      * by apply sublist_inserts_l.
      * by apply sublist_app.
    + intros Hne (r & data & Hf).
      rewrite (Heq1 Hne) by eauto. rewrite (Heq2 Hne); [done|].
      destruct (Hkeep1 _ _ _ Hf) as [data1 Hf1]. eauto.
    + rewrite Hcalls2, Hcalls1, length_app. lia.
Qed.

(** ** The start of a run *)

(** The world in which [main] stops at start keeps every file it found. *)
Lemma stops_at_start_keeps cfg svc w o w' :
  stops_at_start cfg svc w o w' →
  clock w' = clock w ∧ calls w' = calls w
  ∧ ∀ p n, fs w !! p = Some n → fs w' !! p = Some n.
Proof.
  assert (Hkeep : ∀ path v o tr v', readCsv path v = (o, tr, v') →
            clock v' = clock v ∧ calls v' = calls v
            ∧ ∀ p n, fs v !! p = Some n → fs v' !! p = Some n).
  { intros path v o1 tr v' Hr.
    destruct (readCsv_spec path v) as (o2 & v2 & Hr' & Hc & Hk & Hf & _).
    rewrite Hr in Hr'. simplify_eq. done. }
  inversion 1; subst; try done.
  all: repeat match goal with
         | H : readCsv _ _ = _ |- _ => apply Hkeep in H as (? & ? & ?)
         end; split_and!; try congruence; auto.
Qed.

(** The start of [main] reaches the loop with the sent file in place, a
    file open to reading and writing that holds what it held before. *)
Lemma sent_file_at_loop cfg w I w1 S w2 :
  readCsv (indexedFile cfg) w = (Val (Ok I), [], w1) →
  readCsv (sentFile cfg) w1 = (Val (Ok S), [], w2) →
  sentFile cfg ≠ ""
  ∧ clock w2 = clock w ∧ calls w2 = calls w
  ∧ (∀ p n, fs w !! p = Some n → fs w2 !! p = Some n)
  ∧ ∃ data, fs w2 !! sentFile cfg = Some (Regular true true data).
Proof.
  intros HrI HrS.
  destruct (readCsv_spec (indexedFile cfg) w) as (o1 & v1 & H1 & Hc1 & Hk1 & Hf1 & _).
  rewrite HrI in H1. injection H1 as <- <-.
  destruct (readCsv_spec (sentFile cfg) w1) as (o2 & v2 & H2 & Hc2 & Hk2 & Hf2 & Ho2).
  rewrite HrS in H2. injection H2 as <- <-.
  destruct Ho2 as [Hne Hcase]. split_and!; try congruence; auto.
  destruct Hcase as [(_ & _ & Hfs)|(data & records & Hf & _ & -> & _)].
  - exists (Csv []). rewrite Hfs. apply lookup_insert_eq.
  - eauto.
Qed.

Lemma acknowledged_prints tr : prints tr → acknowledged tr = [].
Proof.
  induction 1 as [|[t e] tr [m Hm] _ IH]; [done|].
  simpl in Hm. subst e. done.
Qed.

(** ** The sent file is only appended to *)

(** X2: a run of [main] leaves every file it found, other than the sent
    file, as it was; and a sent file that holds csv records, the last row
    ended by its newline, keeps its permissions and its records, followed
    by the records the run wrote, in the order of the writes. *)
Theorem sent_file_is_append_only cfg svc w :
  let tr := (main cfg svc w).1.2 in
  let w' := (main cfg svc w).2 in
  (∀ p n, p ≠ sentFile cfg → fs w !! p = Some n → fs w' !! p = Some n)
  ∧ (∀ r wr records,
       fs w !! sentFile cfg = Some (Regular r wr (Csv records)) →
       fs w' !! sentFile cfg
       = Some (Regular r wr (Csv (records ++ (writes (sentFile cfg) tr).*2)))).
Proof.
  intros tr w'. subst tr w'.
  destruct (main_cases cfg svc w)
    as [(o & tr & w' & Heq & Hs & _ & Hpr)
       |(D & m & urls & I & S & n & w1 & w2 & q & tr & w3 & pre & post
         & Hcfg & Hps & HrI & HrS & Hts & Hloop & Hpre & Hpost & Heq)];
    rewrite Heq; simpl.
  - destruct (stops_at_start_keeps _ _ _ _ _ Hs) as (_ & _ & Hkeep).
    split; [auto|]. intros r wr records Hf.
    rewrite writes_prints by done. simpl. rewrite app_nil_r. auto.
  - destruct (sent_file_at_loop cfg w I w1 S w2 HrI HrS) as (_ & _ & _ & Hkeep & _).
    destruct (loop_effect svc (sentFile cfg) I S D (pacing m) urls
                (Quota 0 (wrap64 (D - n))) w2)
      as (q' & tr' & w3' & Hloop' & Hframe & Hsent & _).
    rewrite Hloop in Hloop'. injection Hloop' as <- <- <-.
    split.
    + intros p n' Hp Hf. rewrite Hframe by done. auto.
    + intros r wr records Hf.
      rewrite !writes_app, (writes_prints _ pre), (writes_prints _ post) by done.
      simpl. rewrite app_nil_r. auto.
Qed.

(** ** What reaches the sent file *)

(** X4: the URLs a run records in the sent file are, in order, among the
    URLs for which the API answered status 200 in that run: a URL whose
    call failed or returned another status is never recorded. *)
Theorem only_acknowledged_urls_are_recorded cfg svc w :
  recorded (sentFile cfg) ((main cfg svc w).1.2)
    `sublist_of` acknowledged ((main cfg svc w).1.2).
Proof.
  destruct (main_cases cfg svc w)
    as [(o & tr & w' & Heq & _ & _ & Hpr)
       |(D & m & urls & I & S & n & w1 & w2 & q & tr & w3 & pre & post
         & _ & _ & _ & _ & _ & Hloop & Hpre & Hpost & Heq)];
    rewrite Heq; simpl.
  - rewrite recorded_prints by done. apply sublist_nil_l.
  - destruct (loop_effect svc (sentFile cfg) I S D (pacing m) urls
                (Quota 0 (wrap64 (D - n))) w2)
      as (q' & tr' & w3' & Hloop' & _ & _ & _ & Hsub & _).
    rewrite Hloop in Hloop'. injection Hloop' as <- <- <-.
    rewrite !recorded_app, !acknowledged_app.
    rewrite (recorded_prints _ pre), (recorded_prints _ post) by done.
    rewrite (acknowledged_prints pre), (acknowledged_prints post) by done.
    simpl. by rewrite !app_nil_r.
Qed.


(** ** One call for each URL that is not known *)

(** X6: when the start succeeds the run ends normally whatever the API
    answers, and it calls the API once for each occurrence in the sitemap
    of a URL that neither map holds: no more, no fewer. *)
Theorem one_call_per_unknown_url cfg svc w D m urls I S n w1 w2 :
  configured cfg svc D m →
  parseSitemap (sitemapFile cfg) w = (Val (Ok urls), [], w) →
  readCsv (indexedFile cfg) w = (Val (Ok I), [], w1) →
  readCsv (sentFile cfg) w1 = (Val (Ok S), [], w2) →
  todaySent (sentFile cfg) w2 = (Val (Ok n), [], w2) →
  (main cfg svc w).1.1 = Val tt
  ∧ calls ((main cfg svc w).2)
    = (calls w + length (filter (fun u => isKnown I S u = false) urls))%nat.
Proof.
  intros Hcfg Hps HrI HrS Hts.
  destruct (loop_summary svc (sentFile cfg) I S D (pacing m) urls
              (Quota 0 (wrap64 (D - n))) w2)
    as (q & tr & w3 & Hloop & Hpub & _).
  destruct (loop_effect svc (sentFile cfg) I S D (pacing m) urls
              (Quota 0 (wrap64 (D - n))) w2)
    as (q' & tr' & w3' & Hloop' & _ & _ & _ & _ & _ & Hcalls).
  rewrite Hloop in Hloop'. injection Hloop' as <- <- <-.
  rewrite (main_run_eq cfg svc w D m urls I S n w1 w2 q tr w3) by done. simpl.
  split; [done|].
  destruct (sent_file_at_loop cfg w I w1 S w2 HrI HrS) as (_ & _ & Hc & _).
  rewrite Hcalls, Hpub, Hc. done.
Qed.

(** ** The quota before the first day of sleep *)

(** Before its first day of sleep the loop publishes at most as many URLs
    as the limit of the day leaves room for. *)
Lemma loop_first_day svc sentFile indexedUrls sentUrls rateLimitDayInt sleepDur urls q w :
  - 2 ^ 63 ≤ count q < 2 ^ 63 - 1 →
  todayLimit q < 2 ^ 63 - 1 →
  ∃ q' tr w',
    range urls (loop_body svc sentFile indexedUrls sentUrls rateLimitDayInt sleepDur) q w
    = (Val q', tr, w')
    ∧ (length (published (first_day tr)) ≤ Z.to_nat (todayLimit q - count q))%nat.
Proof.
  revert q w. induction urls as [|url urls IH]; intros q w Hc HL.
  - eexists _, _, _. split; [reflexivity|]. simpl. lia.
  - rewrite range_cons.
    destruct (isKnown indexedUrls sentUrls url) eqn:Hk.
    { rewrite loop_body_known by done.
      destruct (IH q w Hc HL) as (q' & tr & w' & -> & Hb). eauto. }
    destruct (loop_body_shape svc sentFile indexedUrls sentUrls rateLimitDayInt sleepDur
                url q w Hk) as (post & w1 & -> & Hcase).
    rewrite incr_small in * by done.
    destruct (Z.gtb_spec (count q + 1) (todayLimit q)) as [Hgt|Hle].
    + destruct (loop_summary svc sentFile indexedUrls sentUrls rateLimitDayInt sleepDur
                  urls (Quota 0 rateLimitDayInt) w1) as (q2 & tr2 & w2 & -> & _).
      eexists _, _, _. split; [reflexivity|]. simpl. lia.
    + destruct (IH (Quota (count q + 1) (todayLimit q)) w1) as (q2 & tr2 & w2 & -> & Hb);
        [simpl; lia..|].
      eexists _, _, _. split; [reflexivity|]. cbv iota.
      rewrite first_day_app_clear.
      2: { destruct Hcase as [(e & _ & -> & _)|[(code & _ & _ & -> & _)
                             |[(e & _ & _ & -> & _)|(wa & _ & _ & -> & _)]]]; done. }
      simpl in Hb. rewrite published_app, length_app.
      assert (Hone : length (published
                ([] ++ [(clock w, EvPrint (MsgSending url));
                        (clock w, EvPublish url (reply (respond svc (calls w) url)))]
                    ++ post)) = 1%nat).
      { destruct Hcase as [(e & _ & -> & _)|[(code & _ & _ & -> & _)
                          |[(e & _ & _ & -> & _)|(wa & _ & _ & -> & _)]]]; done. }
      rewrite Hone. simpl. lia.
Qed.

(** X7: when the start succeeds, the number of URLs a run publishes before
    its first day of sleep is at most the limit of the day as [main]
    computes it, the daily limit less the records of today in the sent
    file; none when that limit is zero or negative. *)
Theorem first_day_within_quota cfg svc w D m urls I S n w1 w2 :
  configured cfg svc D m →
  parseSitemap (sitemapFile cfg) w = (Val (Ok urls), [], w) →
  readCsv (indexedFile cfg) w = (Val (Ok I), [], w1) →
  readCsv (sentFile cfg) w1 = (Val (Ok S), [], w2) →
  todaySent (sentFile cfg) w2 = (Val (Ok n), [], w2) →
  wrap64 (D - n) < 2 ^ 63 - 1 →
  (length (published (first_day ((main cfg svc w).1.2))) ≤ Z.to_nat (wrap64 (D - n)))%nat.
Proof.
  intros Hcfg Hps HrI HrS Hts Hlim.
  destruct (loop_first_day svc (sentFile cfg) I S D (pacing m) urls
              (Quota 0 (wrap64 (D - n))) w2) as (q & tr & w3 & Hloop & Hb);
    [cbn [count]; lia|done|].
  rewrite (main_run_eq cfg svc w D m urls I S n w1 w2 q tr w3) by done.
  cbn [count todayLimit] in Hb. rewrite Z.sub_0_r in Hb.
  cbn [fst snd]. rewrite first_day_app_clear by done.
  rewrite published_app. cbn [published omap app length].
  rewrite first_day_app_print. done.
Qed.

(** ** Counting the records of today *)

Lemma count_today_foldl today (records : list (list string)) acc :
  0 ≤ acc →
  acc + Z.of_nat (length records) < 2 ^ 63 →
  foldl (fun sent r => if HasPrefix (default "" (r !! 1%nat)) today then incr sent else sent)
    acc records
  = acc + Z.of_nat (length (filter (fun r => sent_on today r = true) records)).
Proof.
  revert acc. induction records as [|r records IH]; intros acc Hacc Hlen; simpl.
  - lia.
  - simpl in Hlen. rewrite filter_cons.
    change (HasPrefix (default "" (r !! 1%nat)) today) with (sent_on today r).
    destruct (sent_on today r) eqn:Hp.
    + rewrite decide_True by done. rewrite incr_small by lia.
      rewrite IH by lia. cbn [length]. lia.
    + rewrite decide_False by done. rewrite IH by lia. done.
Qed.

(** [todaySent] on a well-formed file, as a count. *)
Lemma todaySent_exact path w wr records :
  path ≠ "" →
  fs w !! path = Some (Regular true wr (Csv records)) →
  csv.check_fields 0 records = Ok tt →
  Forall (fun r => (2 ≤ length r)%nat) records →
  Z.of_nat (length records) < 2 ^ 63 →
  todaySent path w
  = (Val (Ok (Z.of_nat (length (filter
                 (fun r => sent_on (time.FormatDate (clock w)) r = true) records)))),
     [], w).
Proof.
  intros Hne Hf Hck Hlen Hbound.
  destruct (todaySent_spec path w) as (o & -> & Ho).
  destruct o as [[n|e]|?|p]; [| | done |].
  - destruct Ho as (wr' & data' & records' & Hf' & Hrows' & _ & _ & ->).
    rewrite Hf in Hf'. injection Hf' as <- <-. injection Hrows' as <-.
    rewrite count_today_foldl by lia. do 3 f_equal.
  - destruct Ho as [?|Ho]; [done|]. rewrite (Ho _ _ _ Hf eq_refl) in Hck. done.
  - destruct Ho as (wr' & data' & records' & record & Hf' & Hrows' & _ & Hin & Hnone & _).
    rewrite Hf in Hf'. injection Hf' as <- <-. injection Hrows' as <-.
    exfalso. rewrite Forall_forall in Hlen. specialize (Hlen record Hin).
    apply lookup_ge_None in Hnone. lia.
Qed.



(** ** Appending and counting on the same day *)

Lemma prefix_append (p s : string) : String.prefix p (p +:+ s) = true.
Proof.
  induction p as [|c p IH]; simpl; [by destruct s|].
  destruct (ascii_dec c c); [done|congruence].
Qed.

(** A stamp written by [appendUrlToCsv] begins with the date [todaySent]
    looks for at any moment of the same day. *)
Lemma stamp_of_same_day t now :
  t / (24 * time.Hour) = now / (24 * time.Hour) →
  HasPrefix (time.FormatRFC3339 t) (time.FormatDate now) = true.
Proof.
  intros Hday. unfold HasPrefix, time.FormatRFC3339.
  assert (Hd : time.FormatDate now = time.FormatDate t).
  { unfold time.FormatDate. by rewrite Hday. }
  rewrite Hd. apply prefix_append.
Qed.

(** One turn of [appendAll], with its clock. *)
Lemma appendAll_step_at path gap url (errs : list (option error)) w r records :
  path ≠ "" →
  fs w !! path = Some (Regular r true (Csv records)) →
  ∃ tr w',
    (time.Sleep gap;; err ← appendUrlToCsv path url; mret (errs ++ [err])) w
    = (Val (errs ++ [None]), tr, w')
    ∧ clock w' = clock w + Z.max gap 0
    ∧ fs w' !! path
      = Some (Regular r true
                (Csv (records ++ [[url; time.FormatRFC3339 (clock w + Z.max gap 0)]]))).
Proof.
  intros Hne Hf. unfold mbind, Go_bind, bind, time.Sleep. go_simpl.
  rewrite (appendUrlToCsv_csv path url _ r records) by done. go_simpl.
  unfold mret, Go_ret, ret. go_simpl.
  eexists _, _. split; [reflexivity|]. simpl. split; [done|]. apply lookup_insert_eq.
Qed.

(** [appendAll] on a csv file open to writing: the records it adds carry
    stamps taken between the first and the last clock of the run. *)
Lemma appendAll_stamped path gap urls errs w r records :
  path ≠ "" →
  fs w !! path = Some (Regular r true (Csv records)) →
  ∃ tr w' new,
    range urls (fun url errs => time.Sleep gap;; err ← appendUrlToCsv path url;
                                mret (errs ++ [err])) errs w
    = (Val (errs ++ replicate (length urls) None), tr, w')
    ∧ clock w' = clock w + Z.of_nat (length urls) * Z.max gap 0
    ∧ fs w' !! path = Some (Regular r true (Csv (records ++ new)))
    ∧ length new = length urls
    ∧ Forall (fun record => ∃ u t, record = [u; time.FormatRFC3339 t]
                                   ∧ clock w ≤ t ≤ clock w') new.
Proof.
  intros Hne. revert errs w records.
  induction urls as [|url urls IH]; intros errs w records Hf.
  - exists [], w, []. simpl. rewrite !app_nil_r. split_and!; try done. lia.
  - rewrite range_cons.
    destruct (appendAll_step_at path gap url errs w r records Hne Hf)
      as (tr1 & w1 & -> & Hc1 & Hf1).
    destruct (IH (errs ++ [None]) w1 _ Hf1)
      as (tr & w' & new & -> & Hc & Hf' & Hlen & Hall).
    eexists _, w', (_ :: new). split_and!.
    + rewrite <- app_assoc. reflexivity.
    + rewrite Hc, Hc1. cbn [length]. lia.
    + rewrite Hf', <- app_assoc. reflexivity.
    + simpl. by rewrite Hlen.
    + constructor.
      * eexists _, _. split; [reflexivity|]. lia.
      * eapply Forall_impl; [exact Hall|]. simpl.
        intros record (u & t & -> & Ht). eexists _, _. split; [reflexivity|]. lia.
Qed.

(** X10: on a sent file that holds records of two fields, the last row ended
    by its newline, appending URLs one by one, all on the day of the first
    clock, makes the count of [todaySent] at the end grow by the number of
    URLs appended. *)
Theorem appended_today_are_counted path gap urls w (records : list (list string)) :
  path ≠ "" →
  fs w !! path = Some (Regular true true (Csv records)) →
  Forall (fun r => length r = 2%nat) records →
  let final := clock w + Z.of_nat (length urls) * Z.max gap 0 in
  final / (24 * time.Hour) = clock w / (24 * time.Hour) →
  Z.of_nat (length records + length urls) < 2 ^ 63 →
  ∃ tr w',
    appendAll path gap urls w = (Val (replicate (length urls) None), tr, w')
    ∧ clock w' = final
    ∧ todaySent path w'
      = (Val (Ok (Z.of_nat (length (filter
                     (fun r => sent_on (time.FormatDate (clock w)) r = true) records)
                   + length urls))), [], w').
Proof.
  intros Hne Hf Htwo final Hday Hbound.
  destruct (appendAll_stamped path gap urls [] w true records Hne Hf)
    as (tr & w' & new & Happ & Hc & Hf' & Hlen & Hall).
  exists tr, w'. split; [exact Happ|]. split; [done|].
  assert (Hdate : time.FormatDate (clock w') = time.FormatDate (clock w)).
  { unfold time.FormatDate. rewrite Hc. fold final. by rewrite Hday. }
  assert (Hnew2 : Forall (fun r : list string => length r = 2%nat) new).
  { eapply Forall_impl; [exact Hall|]. simpl. by intros record (u & t & -> & _). }
  assert (Hall2 : Forall (fun r : list string => length r = 2%nat) (records ++ new))
    by (apply Forall_app; done).
  assert (Hfilter : filter (fun r => sent_on (time.FormatDate (clock w)) r = true) new
                    = new).
  { clear -Hall Hc Hday. subst final.
    induction Hall as [|record new (u & t & -> & Ht) _ IH]; [done|].
    rewrite filter_cons, decide_True; [by rewrite IH|].
    unfold sent_on. cbn [lookup list_lookup default]. apply stamp_of_same_day.
    assert (Hd : 0 < 24 * time.Hour) by (vm_compute; done).
    pose proof (Z.div_le_mono (clock w) t _ Hd ltac:(lia)).
    pose proof (Z.div_le_mono t (clock w') _ Hd ltac:(lia)).
    rewrite Hc in *. lia. }
  rewrite (todaySent_exact path w' true (records ++ new)); try done.
  - by rewrite Hdate, filter_app, length_app, Hfilter, Hlen.
  - by apply (check_fields_uniform 2 _ ltac:(lia) Hall2).
  - eapply Forall_impl; [exact Hall2|]. simpl. intros; lia.
  - rewrite length_app, Hlen. lia.
Qed.

Lemma appended_today_are_counted_witness :
  let w := boot {[ "sent.csv" := Regular true true (Csv [["A"; "2024-04-05T00:00:00Z"];
                                                         ["B"; "2024-04-04T10:00:00Z"]]) ]} in
  ∃ tr w',
    appendAll "sent.csv" (90 * time.Second) ["C"; "D"] w = (Val [None; None], tr, w')
    ∧ clock w' = midnight + 180 * time.Second
    ∧ todaySent "sent.csv" w' = (Val (Ok 3), [], w').
Proof.
  intros w.
  destruct (appended_today_are_counted "sent.csv" (90 * time.Second) ["C"; "D"] w
              [["A"; "2024-04-05T00:00:00Z"]; ["B"; "2024-04-04T10:00:00Z"]])
    as (tr & w' & H1 & H2 & H3).
  - discriminate.
  - reflexivity.
  - repeat constructor.
  - vm_compute. reflexivity.
  - vm_compute. reflexivity.
  - exists tr, w'. split; [exact H1|]. split; [exact H2|]. exact H3.
Defined.

(** ** The sitemap *)

(** X11: [parseSitemap] only reads: it leaves the world as it is and creates
    no file; it returns the [<loc>] values of the document, in their order
    and with their repetitions, exactly when the path names a readable
    urlset document, and an error otherwise, [ENOENT] for a file that is
    not there. *)
Theorem parseSitemap_only_reads path w :
  ∃ r,
    parseSitemap path w = (Val r, [], w)
    ∧ (∀ wr locs, path ≠ "" → fs w !! path = Some (Regular true wr (Xml locs)) →
                  r = Ok locs)
    ∧ ((path = "" ∨ fs w !! path = None) → r = Err ENOENT)
    ∧ (∀ urls, r = Ok urls →
               path ≠ "" ∧ ∃ wr, fs w !! path = Some (Regular true wr (Xml urls))).
Proof.
  destruct (parseSitemap_spec path w) as (r & Heq & Hiff).
  exists r. split; [exact Heq|]. split_and!.
  - intros wr locs Hne Hf. apply Hiff. eauto.
  - intros Habs.
    assert (Hno : parseSitemap path w = (Val (Err ENOENT), [], w)).
    { unfold parseSitemap, os.Open, os.OpenFile. go_unfold.
      destruct (String.eqb_spec path "") as [->|Hne]; [done|].
      destruct Habs as [?|Hf]; [done|]. by rewrite Hf. }
    congruence.
  - intros urls. apply Hiff.
Qed.

(** X12: when the limits and the service are accepted but the sitemap
    cannot be parsed, [main] stops on that error after one printed line,
    in the world it started in: neither csv file has been created and
    nothing is published. *)
Theorem unreadable_sitemap_stops_before_loading cfg svc w D m e :
  configured cfg svc D m →
  parseSitemap (sitemapFile cfg) w = (Val (Err e), [], w) →
  main cfg svc w
  = (Exited "Error parsing sitemap:" e,
     [(clock w, EvPrint (MsgSleepDuration (pacing m)))], w).
Proof.
  intros (Hc & HD & Hm & Hm0) Hps.
  unfold main, indexing.NewService, div. go_unfold.
  rewrite Hc, HD, Hm. go_simpl.
  destruct (Z.eqb_spec m 0) as [?|_]; [done|]. go_simpl.
  fold (pacing m). rewrite Hps. go_simpl. reflexivity.
Qed.

Lemma unreadable_sitemap_stops_before_loading_witness :
  let w := boot ∅ in
  main (settings "200" "60") always_ok w
  = (Exited "Error parsing sitemap:" ENOENT,
     [(midnight, EvPrint (MsgSleepDuration (pacing 60)))], w)
  ∧ fs w !! "sent.csv" = None.
Proof.
  intros w. split; [|reflexivity].
  apply (unreadable_sitemap_stops_before_loading (settings "200" "60") always_ok w 200 60).
  - repeat split. discriminate.
  - reflexivity.
Defined.

(** ** What [readCsv] holds *)

(** X13: the set a successful [readCsv] returns contains a URL exactly when
    the URL is the first field of a record of the file as it was found;
    the other fields, the order and the repetitions of the records do not
    matter, and a file that was there is left as it was. *)
Theorem readCsv_holds_first_fields path w s tr w' :
  readCsv path w = (Val (Ok s), tr, w') →
  (∀ url, contains s url = true ↔ listed (fs w) path url)
  ∧ (∀ n, fs w !! path = Some n → w' = w).
Proof.
  intros Hr.
  destruct (readCsv_spec path w) as (o & w'' & Hr' & _ & _ & _ & Ho).
  rewrite Hr in Hr'. simplify_eq.
  destruct Ho as [Hne [(Hnone & -> & _)
                      |(data & records & Hf & Hrows & -> & _ & Hsome & ->)]].
  - split; [|congruence]. intros url. unfold contains.
    rewrite bool_decide_eq_true. split; [intros []%elem_of_empty|].
    intros (r & wr & data & records & record & Hf & _). congruence.
  - split; [|done]. intros url. unfold contains.
    rewrite bool_decide_eq_true, first_fields_elem. split.
    + intros [[]%elem_of_empty|(record & Hin & Hd)].
      exists true, true, data, records, record. split_and!; try done.
      rewrite Forall_forall in Hsome. destruct (Hsome record Hin) as [x Hx].
      rewrite Hx in Hd |- *. simpl in Hd. by subst.
    + intros (r & wr & data' & records' & record & Hf' & Hrows' & Hin & H0).
      rewrite Hf in Hf'. simplify_eq. right. exists record. split; [done|].
      by rewrite H0.
Qed.

Lemma readCsv_holds_first_fields_witness :
  let w := boot {[ "indexed.csv" := Regular true true
                     (Csv [["B"; "x"]; ["A"; "y"]; ["B"; "z"]]) ]} in
  ∃ s, readCsv "indexed.csv" w = (Val (Ok s), [], w)
       ∧ contains s "B" = true ∧ contains s "x" = false.
Proof.
  intros w.
  assert (Hr : ∃ s, readCsv "indexed.csv" w = (Val (Ok s), [], w)).
  { eexists. vm_compute. reflexivity. }
  destruct Hr as [s Hr]. exists s. split; [exact Hr|].
  destruct (readCsv_holds_first_fields "indexed.csv" w s [] w Hr) as [Hiff _].
  split.
  - apply Hiff.
    exists true, true, (Csv [["B"; "x"]; ["A"; "y"]; ["B"; "z"]]),
      [["B"; "x"]; ["A"; "y"]; ["B"; "z"]], ["B"; "x"].
    split_and!; [reflexivity|reflexivity|left|reflexivity].
  - destruct (contains s "x") eqn:Hc; [|done].
    apply Hiff in Hc as (r & wr & data & records & record & Hf & Hrows & Hin & H0).
    injection Hf as <- <- <-. injection Hrows as <-.
    repeat (apply elem_of_cons in Hin as [->|Hin]; [discriminate H0|]).
    by apply elem_of_nil in Hin.
Defined.

(** ** Records of differing lengths *)



(** ** The quota counts attempts *)

(** The counter and the number of day-long sleeps of the loop do not
    depend on what the service answers nor on the files. *)
Lemma loop_pauses svc svc' sentFile sentFile' indexedUrls sentUrls rateLimitDayInt
    sleepDur sleepDur' urls q w w' :
  ∃ q1 tr w1 tr' w1',
    range urls (loop_body svc sentFile indexedUrls sentUrls rateLimitDayInt sleepDur) q w
    = (Val q1, tr, w1)
    ∧ range urls (loop_body svc' sentFile' indexedUrls sentUrls rateLimitDayInt sleepDur') q w'
      = (Val q1, tr', w1')
    ∧ pauses tr = pauses tr'.
Proof.
  revert q w w'. induction urls as [|url urls IH]; intros q w w'.
  - eexists _, _, _, _, _. split; [reflexivity|]. split; [reflexivity|]. done.
  - rewrite !range_cons.
    destruct (isKnown indexedUrls sentUrls url) eqn:Hk.
    { rewrite !loop_body_known by done.
      destruct (IH q w w') as (q1 & tr & w1 & tr' & w1' & -> & -> & Hp).
      eexists _, _, _, _, _. split; [reflexivity|]. split; [reflexivity|]. done. }
    destruct (loop_body_shape svc sentFile indexedUrls sentUrls rateLimitDayInt sleepDur
                url q w Hk) as (post & v & -> & Hcase).
    destruct (loop_body_shape svc' sentFile' indexedUrls sentUrls rateLimitDayInt sleepDur'
                url q w' Hk) as (post' & v' & -> & Hcase').
    match goal with
    | |- context [range urls _ ?q0 v] =>
        destruct (IH q0 v v') as (q1 & tr & w1 & tr' & w1' & -> & -> & Hp)
    end.
    eexists _, _, _, _, _. split; [reflexivity|]. split; [reflexivity|].
    rewrite !pauses_app, Hp.
    assert (Hpost : pauses post = 0%nat).
    { destruct Hcase as [(e & _ & -> & _)|[(code & _ & _ & -> & _)
                        |[(e & _ & _ & -> & _)|(wa & _ & _ & -> & _)]]]; done. }
    assert (Hpost' : pauses post' = 0%nat).
    { destruct Hcase' as [(e & _ & -> & _)|[(code & _ & _ & -> & _)
                         |[(e & _ & _ & -> & _)|(wa & _ & _ & -> & _)]]]; done. }
    rewrite Hpost, Hpost'. destruct (incr (count q) >? todayLimit q); done.
Qed.

(** A run that stops at start never got to sleep a day. *)
Lemma main_pauses_or_runs cfg svc w :
  pauses ((main cfg svc w).1.2) = 0%nat
  ∨ ∃ D m urls I S n w1 w2,
      configured cfg svc D m
      ∧ parseSitemap (sitemapFile cfg) w = (Val (Ok urls), [], w)
      ∧ readCsv (indexedFile cfg) w = (Val (Ok I), [], w1)
      ∧ readCsv (sentFile cfg) w1 = (Val (Ok S), [], w2)
      ∧ todaySent (sentFile cfg) w2 = (Val (Ok n), [], w2).
Proof.
  unfold main, indexing.NewService, div. go_unfold.
  destruct (connect svc (credentialsFile cfg)) eqn:Hconn; go_simpl; [|by left].
  destruct (strconv.Atoi (rateLimitDay cfg)) as [D|e] eqn:HD; go_simpl; [|by left].
  destruct (strconv.Atoi (rateLimitMinute cfg)) as [m|e] eqn:Hm; go_simpl; [|by left].
  destruct (Z.eqb_spec m 0) as [->|Hm0]; go_simpl; [by left|].
  assert (Hcfg : configured cfg svc D m) by done.
  destruct (parseSitemap_spec (sitemapFile cfg) w) as (r & Hps & _). rewrite Hps. go_simpl.
  destruct r as [urls|e]; go_simpl; [|by left].
  destruct (readCsv_spec (indexedFile cfg) w) as (o1 & w1 & HrI & _).
  rewrite HrI. go_simpl.
  destruct o1 as [[I|e]|?|?]; go_simpl; [|by left..].
  destruct (readCsv_spec (sentFile cfg) w1) as (o2 & w2 & HrS & _).
  rewrite HrS. go_simpl.
  destruct o2 as [[S|e]|?|?]; go_simpl; [|by left..].
  destruct (todaySent_spec (sentFile cfg) w2) as (o3 & Hts & _).
  rewrite Hts. go_simpl.
  destruct o3 as [[n|e]|?|?]; go_simpl; [|by left..].
  right. exists D, m, urls, I, S, n, w1, w2. done.
Qed.

(** X8: the number of times a run sleeps a day does not depend on what the
    API answers: the counter counts the URLs tried, also those whose call
    fails, so a service that refuses every URL uses up the daily quota as
    one that accepts them all. *)
Theorem quota_counts_attempts cfg svc svc' w :
  connect svc (credentialsFile cfg) = connect svc' (credentialsFile cfg) →
  pauses ((main cfg svc w).1.2) = pauses ((main cfg svc' w).1.2).
Proof.
  intros Hc.
  assert (Hrun : ∀ s s' D m urls I S n w1 w2,
            connect s (credentialsFile cfg) = connect s' (credentialsFile cfg) →
            configured cfg s D m →
            parseSitemap (sitemapFile cfg) w = (Val (Ok urls), [], w) →
            readCsv (indexedFile cfg) w = (Val (Ok I), [], w1) →
            readCsv (sentFile cfg) w1 = (Val (Ok S), [], w2) →
            todaySent (sentFile cfg) w2 = (Val (Ok n), [], w2) →
            pauses ((main cfg s w).1.2) = pauses ((main cfg s' w).1.2)).
  { intros s s' D m urls I S n w1 w2 Hcc Hcfg Hps HrI HrS Hts.
    assert (Hcfg' : configured cfg s' D m).
    { destruct Hcfg as (? & ? & ? & ?). split_and!; try done. congruence. }
    destruct (loop_pauses s s' (sentFile cfg) (sentFile cfg) I S D (pacing m) (pacing m)
                urls (Quota 0 (wrap64 (D - n))) w2 w2)
      as (q1 & t & v & t' & v' & Hl & Hl' & Hp).
    rewrite (main_run_eq cfg s w D m urls I S n w1 w2 q1 t v) by done.
    rewrite (main_run_eq cfg s' w D m urls I S n w1 w2 q1 t' v') by done.
    cbn [fst snd]. rewrite !pauses_app, Hp. done. }
  destruct (main_pauses_or_runs cfg svc w)
    as [H0|(D & m & urls & I & S & n & w1 & w2 & Hcfg & Hps & HrI & HrS & Hts)];
    [|by eapply Hrun].
  destruct (main_pauses_or_runs cfg svc' w)
    as [H0'|(D & m & urls & I & S & n & w1 & w2 & Hcfg & Hps & HrI & HrS & Hts)];
    [congruence|].
  symmetry. by eapply Hrun.
Qed.

Lemma quota_counts_attempts_witness :
  pauses ((main (settings "1" "60") always_ok (boot (disk ["A"; "B"] []))).1.2) = 1%nat
  ∧ pauses ((main (settings "1" "60") unavailable (boot (disk ["A"; "B"] []))).1.2) = 1%nat.
Proof.
  assert (H : pauses ((main (settings "1" "60") always_ok
                         (boot (disk ["A"; "B"] []))).1.2) = 1%nat)
    by (vm_compute; reflexivity).
  split; [exact H|].
  rewrite <- (quota_counts_attempts (settings "1" "60") always_ok unavailable
                (boot (disk ["A"; "B"] [])) eq_refl).
  exact H.
Defined.

(** ** The paths a run touches *)

Lemma readCsv_other path w o tr w' p :
  readCsv path w = (o, tr, w') → p ≠ path → fs w' !! p = fs w !! p.
Proof.
  intros Hr Hp.
  destruct (readCsv_spec path w) as (o' & w'' & Hr' & _ & _ & _ & Ho).
  rewrite Hr in Hr'. simplify_eq.
  destruct o' as [[s|e]|?|?]; [| | done |].
  - destruct Ho as [_ [(_ & _ & ->)|(? & ? & _ & _ & -> & _)]]; [|done].
    by rewrite lookup_insert_ne.
  - by destruct Ho as [-> _].
  - by destruct Ho as [-> _].
Qed.

Lemma stops_at_start_other cfg svc w o w' p :
  stops_at_start cfg svc w o w' →
  p ≠ indexedFile cfg → p ≠ sentFile cfg → fs w' !! p = fs w !! p.
Proof.
  intros Hs Hi Hse. inversion Hs; subst; try done.
  all: repeat match goal with
         | H : readCsv _ _ = _ |- _ => apply (readCsv_other _ _ _ _ _ p) in H; [|done]
         end; congruence.
Qed.

(** X3: a run of [main] changes nothing at any path other than those of the
    indexed file and of the sent file: it writes to no other file, creates
    none, and the sitemap is only read. *)
Theorem main_touches_two_paths cfg svc w p :
  p ≠ indexedFile cfg → p ≠ sentFile cfg →
  fs ((main cfg svc w).2) !! p = fs w !! p.
Proof.
  intros Hi Hse.
  destruct (main_cases cfg svc w)
    as [(o & tr & w' & Heq & Hs & _)
       |(D & m & urls & I & S & n & w1 & w2 & q & tr & w3 & pre & post
         & _ & _ & HrI & HrS & _ & Hloop & _ & _ & Heq)];
    rewrite Heq; simpl.
  - by eapply stops_at_start_other.
  - destruct (loop_effect svc (sentFile cfg) I S D (pacing m) urls
                (Quota 0 (wrap64 (D - n))) w2)
      as (q' & tr' & w3' & Hloop' & Hframe & _).
    rewrite Hloop in Hloop'. injection Hloop' as <- <- <-.
    rewrite Hframe by done.
    rewrite (readCsv_other _ _ _ _ _ p HrS) by done.
    by rewrite (readCsv_other _ _ _ _ _ p HrI).
Qed.

Lemma main_touches_two_paths_witness :
  let w := boot (disk ["A"; "B"] [["B"]]) in
  fs ((main (settings "200" "60") always_ok w).2) !! "sitemap.xml"
  = Some (Regular true false (Xml ["A"; "B"]))
  ∧ fs ((main (settings "200" "60") always_ok w).2) !! "notes.txt" = None.
Proof.
  intros w. split.
  - rewrite (main_touches_two_paths (settings "200" "60") always_ok w "sitemap.xml")
      by discriminate.
    reflexivity.
  - rewrite (main_touches_two_paths (settings "200" "60") always_ok w "notes.txt")
      by discriminate.
    reflexivity.
Defined.

(** ** Limits that are not set *)

(** X15: there is no default for either limit: when the service is
    accepted and RATE_LIMIT_PER_DAY is empty, or it is an integer and
    RATE_LIMIT_PER_MINUTE is empty, [main] stops on the syntax error of
    the conversion, having printed nothing and touched no file. *)
Theorem unset_limit_is_fatal cfg svc w :
  connect svc (credentialsFile cfg) = true →
  (rateLimitDay cfg = "" →
   main cfg svc w
   = (Exited "Error converting rate limit per day to integer:" ErrSyntax, [], w))
  ∧ (rateLimitMinute cfg = "" →
     (∃ D, strconv.Atoi (rateLimitDay cfg) = Ok D) →
     main cfg svc w
     = (Exited "Error converting rate limit per minute to integer:" ErrSyntax, [], w)).
Proof.
  intros Hc. split.
  - intros Hd. unfold main, indexing.NewService. go_unfold. rewrite Hc, Hd. reflexivity.
  - intros Hm [D HD]. unfold main, indexing.NewService. go_unfold.
    rewrite Hc, HD, Hm. reflexivity.
Qed.

Lemma unset_limit_is_fatal_witness :
  main (settings "" "60") always_ok (boot (disk ["A"] []))
  = (Exited "Error converting rate limit per day to integer:" ErrSyntax, [],
     boot (disk ["A"] []))
  ∧ main (settings "200" "") always_ok (boot (disk ["A"] []))
    = (Exited "Error converting rate limit per minute to integer:" ErrSyntax, [],
       boot (disk ["A"] [])).
Proof.
  split.
  - apply (unset_limit_is_fatal (settings "" "60") always_ok (boot (disk ["A"] [])) eq_refl).
    reflexivity.
  - apply (unset_limit_is_fatal (settings "200" "") always_ok (boot (disk ["A"] [])) eq_refl).
    + reflexivity.
    + exists 200. reflexivity.
Defined.

(** ** Witnesses *)

Lemma append_adds_one_record_witness :
  let w := boot {[ "sent.csv" := Regular true true (Csv [["A"; "2024-04-04T10:00:00Z"]]) ]} in
  ∃ w',
    appendUrlToCsv "sent.csv" "B" w
    = (Val None, [(midnight, EvWrite "sent.csv" ["B"; "2024-04-05T00:00:00Z"])], w')
    ∧ fs w' !! "sent.csv"
      = Some (Regular true true (Csv [["A"; "2024-04-04T10:00:00Z"];
                                      ["B"; "2024-04-05T00:00:00Z"]])).
Proof.
  intros w.
  destruct (append_adds_one_record "sent.csv" "B" w) as (o & tr & w' & Heq & Hcase).
  destruct Hcase as [(e & _ & _ & _ & [Hp|(n & Hn & Hno)])
                    |(-> & _ & -> & _ & _ & _ & _ & Hsent)].
  - discriminate Hp.
  - injection Hn as <-. destruct (Hno true (Csv [["A"; "2024-04-04T10:00:00Z"]]) eq_refl).
  - exists w'. split; [exact Heq|]. exact Hsent.
Defined.

Lemma sent_file_is_append_only_witness :
  let w := boot (<["sent.csv" := Regular true true (Csv [["Z"; "2024-04-04T10:00:00Z"]])]>
                   (disk ["A"] [])) in
  fs ((main (settings "200" "60") always_ok w).2) !! "sent.csv"
  = Some (Regular true true (Csv [["Z"; "2024-04-04T10:00:00Z"];
                                  ["A"; "2024-04-05T00:00:00Z"]])).
Proof.
  intros w.
  pose proof (sent_file_is_append_only (settings "200" "60") always_ok w) as H.
  cbv zeta in H. destruct H as [_ H].
  refine (eq_trans (H true true [["Z"; "2024-04-04T10:00:00Z"]] eq_refl) _).
  vm_compute. reflexivity.
Defined.

Lemma one_call_per_unknown_url_witness :
  let w := boot (disk ["A"; "B"; "C"; "A"] [["B"]]) in
  (main (settings "200" "60") unavailable w).1.1 = Val tt
  ∧ calls ((main (settings "200" "60") unavailable w).2) = 3%nat.
Proof.
  intros w.
  assert (Hcfg : configured (settings "200" "60") unavailable 200 60)
    by (repeat split; discriminate).
  assert (Hps : parseSitemap "sitemap.xml" w = (Val (Ok ["A"; "B"; "C"; "A"]), [], w))
    by (vm_compute; reflexivity).
  assert (HrI : readCsv "indexed.csv" w = (Val (Ok {[ "B" ]}), [], w))
    by (vm_compute; reflexivity).
  assert (HrS : readCsv "sent.csv" w
                = (Val (Ok ∅), [],
                   World (<["sent.csv" := Regular true true (Csv [])]> (fs w)) midnight 0))
    by (vm_compute; reflexivity).
  assert (Hts : todaySent "sent.csv"
                  (World (<["sent.csv" := Regular true true (Csv [])]> (fs w)) midnight 0)
                = (Val (Ok 0), [],
                   World (<["sent.csv" := Regular true true (Csv [])]> (fs w)) midnight 0))
    by (vm_compute; reflexivity).
  destruct (one_call_per_unknown_url (settings "200" "60") unavailable w 200 60
              ["A"; "B"; "C"; "A"] {[ "B" ]} ∅ 0 w _ Hcfg Hps HrI HrS Hts) as [H1 H2].
  split; [exact H1|]. rewrite H2. vm_compute. reflexivity.
Defined.

Lemma first_day_within_quota_witness :
  let w := boot (disk ["A"; "B"; "C"] []) in
  (length (published (first_day ((main (settings "2" "60") always_ok w).1.2))) ≤ 2)%nat.
Proof.
  intros w.
  assert (Hcfg : configured (settings "2" "60") always_ok 2 60)
    by (repeat split; discriminate).
  assert (Hps : parseSitemap "sitemap.xml" w = (Val (Ok ["A"; "B"; "C"]), [], w))
    by (vm_compute; reflexivity).
  assert (HrI : readCsv "indexed.csv" w = (Val (Ok ∅), [], w))
    by (vm_compute; reflexivity).
  assert (HrS : readCsv "sent.csv" w
                = (Val (Ok ∅), [],
                   World (<["sent.csv" := Regular true true (Csv [])]> (fs w)) midnight 0))
    by (vm_compute; reflexivity).
  assert (Hts : todaySent "sent.csv"
                  (World (<["sent.csv" := Regular true true (Csv [])]> (fs w)) midnight 0)
                = (Val (Ok 0), [],
                   World (<["sent.csv" := Regular true true (Csv [])]> (fs w)) midnight 0))
    by (vm_compute; reflexivity).
  assert (Hlim : wrap64 (2 - 0) < 2 ^ 63 - 1) by (vm_compute; reflexivity).
  exact (first_day_within_quota (settings "2" "60") always_ok w 2 60
           ["A"; "B"; "C"] ∅ ∅ 0 w _ Hcfg Hps HrI HrS Hts Hlim).
Defined.

Lemma parseSitemap_only_reads_witness :
  parseSitemap "sitemap.xml" (boot (disk ["B"; "A"; "B"] []))
  = (Val (Ok ["B"; "A"; "B"]), [], boot (disk ["B"; "A"; "B"] []))
  ∧ parseSitemap "sitemap.xml" (boot ∅) = (Val (Err ENOENT), [], boot ∅).
Proof.
  split.
  - destruct (parseSitemap_only_reads "sitemap.xml" (boot (disk ["B"; "A"; "B"] [])))
      as (r & Heq & Hok & _).
    rewrite Heq. rewrite (Hok false ["B"; "A"; "B"]); [reflexivity|discriminate|reflexivity].
  - destruct (parseSitemap_only_reads "sitemap.xml" (boot ∅)) as (r & Heq & _ & Hno & _).
    rewrite Heq. rewrite Hno; [reflexivity|]. right. reflexivity.
Defined.
